(** * Incus: cluster admin surface, migration sessions, image store

    A shallow embedding of the parts of the daemon and of the admin tool that
    the specification talks about, and the properties proved about them.

    - [Cluster]    : [ToRaftNode] and [validateNewConfig] of the
                     [admin cluster edit] command;
    - [Migration]  : [newMigrationSource], [newMigrationSink] and the two
                     [do] methods of the migration source and sink;
    - [Operations] : [imageValidSecret] over an operations subsystem that
                     is a parameter;
    - [Images]     : [pruneExpiredImages], [imageDelete], [imagePatch],
                     [getImgPostInfo] and [imgPostInstanceInfo] over one
                     state of the cluster database, the image directory and
                     the storage pools.

    Definitions keep the names of the Go source.  A function that returns
    [(T, error)] returns a [result]; a function with effects takes the state
    and returns the new one, together with what it returns in Go; calls that
    can fail for reasons outside the program ask an oracle of the
    environment; an index out of range, a write to a nil map or a failed
    type assertion is an ending of its own ([Panic], [Panicked],
    [Panics]); code that the sources at hand do not have is a parameter, or
    is modelled from the specification and marked so. *)

From stdpp Require Import gmap strings list.
From Stdlib Require Import ZArith Ascii.

Open Scope string_scope.
Open Scope Z_scope.

Set Warnings "-clear-no-such-hyp".

(** ** Common vocabulary *)

(** The double quote character, and Go's [%q] verb on a string
    ([strconv.Quote]): the string between double quotes, with a backslash
    before a double quote and before a backslash, the escapes [\a], [\b],
    [\t], [\n], [\v], [\f] and [\r] for the bytes 7 to 13, and [\x] and
    two hexadecimal digits for the other bytes below 32 and for 127.  The
    bytes from 128 on are taken to spell printable runes in UTF-8, which
    [%q] leaves as they are. *)
Definition dquote : string := String (ascii_of_nat 34) EmptyString.

Definition hexDigit (n : nat) : ascii :=
  ascii_of_nat (if (n <? 10)%nat then 48 + n else 87 + n).

Definition quoteByte (c : ascii) : string :=
  let n := nat_of_ascii c in
  let escape (e : ascii) := String (ascii_of_nat 92) (String e EmptyString) in
  if (n =? 34)%nat || (n =? 92)%nat then escape c
  else if (n =? 7)%nat then escape "a"%char
  else if (n =? 8)%nat then escape "b"%char
  else if (n =? 9)%nat then escape "t"%char
  else if (n =? 10)%nat then escape "n"%char
  else if (n =? 11)%nat then escape "v"%char
  else if (n =? 12)%nat then escape "f"%char
  else if (n =? 13)%nat then escape "r"%char
  else if (n <? 32)%nat || (n =? 127)%nat
       then escape "x"%char ++ String (hexDigit (n / 16)) (String (hexDigit (n mod 16)) EmptyString)
  else String c EmptyString.

Fixpoint quoteBody (s : string) : string :=
  match s with
  | EmptyString => EmptyString
  | String c rest => quoteByte c ++ quoteBody rest
  end.

Definition fmt_q (s : string) : string := dquote ++ quoteBody s ++ dquote.

(** Go [error] values: [errors.New] and [fmt.Errorf] without [%w], a
    package-level error value known by its name, and [fmt.Errorf] with a
    wrapped error ([msg] is the text before [": %w"]). *)
Inductive error : Type :=
| errors_New (msg : string)
| Sentinel (name : string)
| Wrap (msg : string) (err : error).

#[global] Instance error_eq_dec : EqDecision error.
Proof. solve_decision. Defined.

(** [(T, error)] results, with the usual bind. *)
Inductive result (A : Type) : Type :=
| Ok (a : A)
| Err (err : error).
Arguments Ok {A} a.
Arguments Err {A} err.

#[global] Instance result_ret : MRet result := λ A a, Ok a.
#[global] Instance result_bind : MBind result := λ A B f r,
  match r with Ok a => f a | Err e => Err e end.

(** [strings.HasPrefix] and [strings.TrimPrefix]. *)
Fixpoint HasPrefix (s p : string) : bool :=
  match p, s with
  | EmptyString, _ => true
  | String c p', String d s' => bool_decide (c = d) && HasPrefix s' p'
  | String _ _, EmptyString => false
  end.

Fixpoint dropString (n : nat) (s : string) : string :=
  match n, s with
  | S n', String _ s' => dropString n' s'
  | _, _ => s
  end.

Definition TrimPrefix (s p : string) : string :=
  if HasPrefix s p then dropString (String.length p) s else s.

(** ** Cluster admin surface *)

Module Cluster.

(** [db.RaftRole]: the three dqlite roles. *)
Inductive RaftRole : Type := RaftVoter | RaftStandBy | RaftSpare.

#[global] Instance RaftRole_eq_dec : EqDecision RaftRole.
Proof. solve_decision. Defined.

Definition RaftRole_String (r : RaftRole) : string :=
  match r with
  | RaftVoter => "voter"
  | RaftStandBy => "stand-by"
  | RaftSpare => "spare"
  end.

(** [db.RaftNode]: [client.NodeInfo] (ID, Address, Role) and a Name. *)
Record RaftNode : Type := mkRaftNode {
  ID : N;
  Address : string;
  Role : RaftRole;
  Name : string
}.

(** The YAML view of a member. *)
Record ClusterMember : Type := mkClusterMember {
  cm_ID : N;
  cm_Name : string;
  cm_Address : string;
  cm_Role : string
}.

Definition ToRaftNode (c : ClusterMember) : result RaftNode :=
  let node r := mkRaftNode (cm_ID c) (cm_Address c) r (cm_Name c) in
  if bool_decide (cm_Role c = "voter") then Ok (node RaftVoter)
  else if bool_decide (cm_Role c = "stand-by") then Ok (node RaftStandBy)
  else if bool_decide (cm_Role c = "spare") then Ok (node RaftSpare)
  else Err (errors_New ("unknown raft role: " ++ fmt_q (cm_Role c))).

(** What a call that returns only an [error] can do. *)
Inductive outcome : Type :=
| Nil
| Error (msg : string)
| Panic.

Definition ErrRemoving : string := "Removing cluster members is not supported".
Definition ErrAdding : string := "Adding cluster members is not supported".
Definition ErrChangeID : string := "Changing cluster member ID is not supported".
Definition ErrChangeName : string := "Changing cluster member name is not supported".
Definition ErrSpareToVoter : string :=
  "A " ++ fmt_q (RaftRole_String RaftSpare) ++ " cluster member cannot become a "
       ++ fmt_q (RaftRole_String RaftVoter).
Definition ErrTwoVoters : string :=
  "Number of " ++ fmt_q (RaftRole_String RaftVoter) ++ " must be 2 or more".
Definition ErrOneVoter : string :=
  "At least one member must be a " ++ fmt_q (RaftRole_String RaftVoter).

(** One iteration of [for i, newNode := range newNodes]: either an early
    return, or the new value of [numNewVoters]. *)
Definition checkNode (oldNodes : list RaftNode) (i : nat) (newNode : RaftNode)
           (numNewVoters : Z) : outcome + Z :=
  match oldNodes !! i with
  | None => inl Panic
  | Some oldNode =>
      if negb (bool_decide (ID oldNode = ID newNode)) then inl (Error ErrChangeID)
      else if negb (bool_decide (Name oldNode = ""))
              && negb (bool_decide (Name newNode = ""))
              && negb (bool_decide (Name oldNode = Name newNode))
      then inl (Error ErrChangeName)
      else if bool_decide (Role oldNode = RaftSpare)
              && bool_decide (Role newNode = RaftVoter)
      then inl (Error ErrSpareToVoter)
      else if bool_decide (Role newNode = RaftVoter) then inr (numNewVoters + 1)
      else inr numNewVoters
  end.

Fixpoint rangeNewNodes (oldNodes : list RaftNode) (i : nat)
         (rest : list RaftNode) (numNewVoters : Z) : outcome + Z :=
  match rest with
  | [] => inr numNewVoters
  | newNode :: rest' =>
      match checkNode oldNodes i newNode numNewVoters with
      | inl o => inl o
      | inr n => rangeNewNodes oldNodes (S i) rest' n
      end
  end.

Definition validateNewConfig (oldNodes newNodes : list RaftNode) : outcome :=
  if (length newNodes <? length oldNodes)%nat then Error ErrRemoving
  else if (length oldNodes <? length newNodes)%nat then Error ErrAdding
  else
    match rangeNewNodes oldNodes 0 newNodes 0 with
    | inl o => o
    | inr numNewVoters =>
        if (numNewVoters <? 2) && (2 <? length newNodes)%nat
        then Error ErrTwoVoters
        else if numNewVoters <? 1 then Error ErrOneVoter
        else Nil
    end.

(** Modelled from the spec: [cluster.Reconfigure] is outside the sources at
    hand; the spec has the edit rewrite the local raft configuration to the
    new member list.  [edit] is the body of the edit loop for one YAML
    document that parsed: validate, then reconfigure. *)
Definition Reconfigure (database newNodes : list RaftNode) : list RaftNode :=
  newNodes.

Definition edit (database newNodes : list RaftNode) : list RaftNode :=
  match validateNewConfig database newNodes with
  | Nil => Reconfigure database newNodes
  | _ => database
  end.

(** The number of voters of a configuration. *)
Definition voters (nodes : list RaftNode) : nat :=
  length (filter (fun n => Role n = RaftVoter) nodes).

(** The three per-member checks of the loop, as a proposition on the old
    and the new node at one position. *)
Definition memberRejected (o n : RaftNode) : Prop :=
  ID o ≠ ID n
  ∨ (Name o ≠ "" ∧ Name n ≠ "" ∧ Name o ≠ Name n)
  ∨ (Role o = RaftSpare ∧ Role n = RaftVoter).

(** The edits that the validation refuses. *)
Definition rejected (oldNodes newNodes : list RaftNode) : Prop :=
  (length newNodes < length oldNodes)%nat
  ∨ (length oldNodes < length newNodes)%nat
  ∨ (∃ i o n, oldNodes !! i = Some o ∧ newNodes !! i = Some n ∧ memberRejected o n)
  ∨ voters newNodes = 0%nat
  ∨ (2 < length newNodes ∧ voters newNodes < 2)%nat.

(** The same list with the name rule read as "the old name is not empty
    and the new name differs from it", whatever the new name is. *)
Definition memberRejected_anyNewName (o n : RaftNode) : Prop :=
  ID o ≠ ID n
  ∨ (Name o ≠ "" ∧ Name n ≠ Name o)
  ∨ (Role o = RaftSpare ∧ Role n = RaftVoter).

Definition rejected_anyNewName (oldNodes newNodes : list RaftNode) : Prop :=
  (length newNodes < length oldNodes)%nat
  ∨ (length oldNodes < length newNodes)%nat
  ∨ (∃ i o n, oldNodes !! i = Some o ∧ newNodes !! i = Some n
              ∧ memberRejected_anyNewName o n)
  ∨ voters newNodes = 0%nat
  ∨ (2 < length newNodes ∧ voters newNodes < 2)%nat.

End Cluster.

(** ** Migration source and sink *)

Module Migration.

(** [instancetype.Type]. *)
Inductive instancetype : Type := Container | VM.

#[global] Instance instancetype_eq_dec : EqDecision instancetype.
Proof. solve_decision. Defined.

(** What the constructors and [do] ask of an [instance.Instance]. *)
Record Instance : Type := mkInstance {
  inst_Project : string;
  inst_Name : string;
  inst_Type : instancetype;
  inst_IsRunning : bool
}.

(** Modelled from the spec: the constants [api.SecretNameControl],
    [api.SecretNameFilesystem] and [api.SecretNameState] are declared
    outside the sources at hand; the spec names the channels [control],
    [filesystem] and [state]. *)
Definition SecretNameControl : string := "control".
Definition SecretNameFilesystem : string := "filesystem".
Definition SecretNameState : string := "state".

(** [migration.ErrNoLiveMigrationSource] and
    [migration.ErrNoLiveMigrationTarget]. *)
Definition ErrNoLiveMigrationSource : error := Sentinel "ErrNoLiveMigrationSource".
Definition ErrNoLiveMigrationTarget : error := Sentinel "ErrNoLiveMigrationTarget".

(** [time.Duration] counts nanoseconds. *)
Definition Second : Z := 1000000000.

(** A websocket dialer and a parsed URL are opaque here. *)
Record Dialer : Type := mkDialer { dialer_cert : string }.
Record URL : Type := mkURL { url_raw : string }.

(** [newMigrationConn(secret, dialer, url)]. *)
Record migrationConn : Type := newMigrationConn {
  conn_secret : string;
  conn_dialer : option Dialer;
  conn_url : option URL
}.

(** [api.InstancePostTarget]. *)
Record InstancePostTarget : Type := mkInstancePostTarget {
  Certificate : string;
  Operation : string;
  Websockets : gmap string string
}.

(** The arguments handed to [MigrateSend] and [MigrateReceive] that do
    not depend on the connections. *)
Record MigrateArgs : Type := mkMigrateArgs {
  Snapshots : bool;
  Live : bool;
  ClusterMoveSourceName : string;
  StoragePool : string
}.

(** What the code observes of the machine it runs on:
    - [LookPath name] tells whether [exec.LookPath] finds the program;
    - [setupWebsocketDialer] and [url_Parse] may fail;
    - [RandomHexString k] is the [k]-th draw of the random source;
    - [WebSocket conn timeout] is [conn.WebSocket(ctx)] for a context that
      expires after [timeout] nanoseconds; [None] is a connection;
    - [MigrateSend] and [MigrateReceive] are the instance's transfer. *)
Record Env : Type := mkEnv {
  LookPath : string → bool;
  setupWebsocketDialer : string → result Dialer;
  url_Parse : string → result URL;
  RandomHexString : nat → result string;
  WebSocket : option migrationConn → Z → option error;
  MigrateSend : MigrateArgs → bool → option error;
  MigrateReceive : MigrateArgs → bool → Z → option error
}.

(** A Go map read: the zero value when the key is absent. *)
Definition getString (m : gmap string string) (k : string) : string :=
  default "" (m !! k).

Record migrationSourceWs : Type := mkMigrationSourceWs {
  s_instance : Instance;
  s_allowInconsistent : bool;
  s_storagePool : string;
  s_instanceOnly : bool;
  s_live : bool;
  s_conns : gmap string migrationConn;
  s_clusterMoveSourceName : string;
  s_pushCertificate : string;
  s_pushOperationURL : string;
  s_pushSecrets : gmap string string
}.

(** The loop [for _, connName := range secretNames] of
    [newMigrationSource]; [k] counts the random draws made so far. *)
Fixpoint sourceConns (env : Env) (pushCertificate pushOperationURL : string)
         (pushSecrets : gmap string string) (secretNames : list string)
         (k : nat) (conns : gmap string migrationConn)
  : result (gmap string migrationConn) :=
  match secretNames with
  | [] => Ok conns
  | connName :: rest =>
      if negb (bool_decide (pushOperationURL = "")) then
        if bool_decide (getString pushSecrets connName = "") then
          Err (errors_New ("Expected " ++ fmt_q connName
                 ++ " connection secret missing from migration source target request"))
        else
          match setupWebsocketDialer env pushCertificate with
          | Err e =>
              Err (Wrap ("Failed setting up websocket dialer for migration source "
                         ++ fmt_q connName ++ " connection") e)
          | Ok dialer =>
              match url_Parse env ("wss://" ++ TrimPrefix pushOperationURL "https://"
                                            ++ "/websocket") with
              | Err e =>
                  Err (Wrap ("Failed parsing websocket URL for migration source "
                             ++ fmt_q connName ++ " connection") e)
              | Ok u =>
                  sourceConns env pushCertificate pushOperationURL pushSecrets rest k
                    (<[connName := newMigrationConn (getString pushSecrets connName)
                                     (Some dialer) (Some u)]> conns)
              end
          end
      else
        match RandomHexString env k with
        | Err e =>
            Err (Wrap ("Failed creating migration source secret for "
                       ++ fmt_q connName ++ " connection") e)
        | Ok secret =>
            sourceConns env pushCertificate pushOperationURL pushSecrets rest (S k)
              (<[connName := newMigrationConn secret None None]> conns)
        end
  end.

Definition newMigrationSource (env : Env) (inst : Instance)
           (stateful instanceOnly allowInconsistent : bool)
           (clusterMoveSourceName storagePool : string)
           (pushTarget : option InstancePostTarget) : result migrationSourceWs :=
  let pushCertificate := from_option Certificate "" pushTarget in
  let pushOperationURL := from_option Operation "" pushTarget in
  let pushSecrets := from_option Websockets ∅ pushTarget in
  let secretNames := [SecretNameControl; SecretNameFilesystem] in
  '(live, secretNames) ←
    (if stateful && inst_IsRunning inst then
       if bool_decide (inst_Type inst = Container) && negb (LookPath env "criu")
       then Err ErrNoLiveMigrationSource
       else Ok (true, (secretNames ++ [SecretNameState])%list)
     else Ok (false, secretNames));
  conns ← sourceConns env pushCertificate pushOperationURL pushSecrets secretNames 0 ∅;
  Ok {| s_instance := inst;
        s_allowInconsistent := allowInconsistent;
        s_storagePool := storagePool;
        s_instanceOnly := instanceOnly;
        s_live := live;
        s_conns := conns;
        s_clusterMoveSourceName := clusterMoveSourceName;
        s_pushCertificate := pushCertificate;
        s_pushOperationURL := pushOperationURL;
        s_pushSecrets := pushSecrets |}.

Record migrationSinkArgs : Type := mkMigrationSinkArgs {
  a_URL : string;
  a_Dialer : option Dialer;
  a_Secrets : gmap string string;
  a_Push : bool;
  a_Instance : Instance;
  a_InstanceOnly : bool;
  a_ClusterMoveSourceName : string;
  a_Live : bool;
  a_Refresh : bool;
  a_RefreshExcludeOlder : Z;
  a_StoragePool : string
}.

Record migrationSink : Type := mkMigrationSink {
  c_instance : Instance;
  c_instanceOnly : bool;
  c_live : bool;
  c_storagePool : string;
  c_conns : gmap string migrationConn;
  c_url : string;
  c_clusterMoveSourceName : string;
  c_push : bool;
  c_refresh : bool;
  c_refreshExcludeOlder : Z
}.

(** The loop [for _, connName := range secretNames] of [newMigrationSink]. *)
Fixpoint sinkConns (env : Env) (args : migrationSinkArgs)
         (secretNames : list string) (k : nat) (conns : gmap string migrationConn)
  : result (gmap string migrationConn) :=
  match secretNames with
  | [] => Ok conns
  | connName :: rest =>
      if negb (a_Push args) then
        if bool_decide (getString (a_Secrets args) connName = "") then
          Err (errors_New ("Expected " ++ fmt_q connName
                 ++ " connection secret missing from migration sink target request"))
        else
          match url_Parse env ("wss://" ++ TrimPrefix (a_URL args) "https://"
                                        ++ "/websocket") with
          | Err e =>
              Err (Wrap ("Failed parsing websocket URL for migration sink "
                         ++ fmt_q connName ++ " connection") e)
          | Ok u =>
              sinkConns env args rest k
                (<[connName := newMigrationConn (getString (a_Secrets args) connName)
                                 (a_Dialer args) (Some u)]> conns)
          end
      else
        match RandomHexString env k with
        | Err e =>
            Err (Wrap ("Failed creating migration sink secret for "
                       ++ fmt_q connName ++ " connection") e)
        | Ok secret =>
            sinkConns env args rest (S k)
              (<[connName := newMigrationConn secret None None]> conns)
        end
  end.

Definition newMigrationSink (env : Env) (args : migrationSinkArgs)
  : result migrationSink :=
  let live := a_Live args in
  let secretNames := [SecretNameControl; SecretNameFilesystem] in
  secretNames ←
    (if live then
       if bool_decide (inst_Type (a_Instance args) = Container)
          && negb (LookPath env "criu")
       then Err ErrNoLiveMigrationTarget
       else Ok (secretNames ++ [SecretNameState])%list
     else Ok secretNames);
  conns ← sinkConns env args secretNames 0 ∅;
  Ok {| c_instance := a_Instance args;
        c_instanceOnly := a_InstanceOnly args;
        c_live := live;
        c_storagePool := a_StoragePool args;
        c_conns := conns;
        c_url := a_URL args;
        c_clusterMoveSourceName := a_ClusterMoveSourceName args;
        c_push := a_Push args;
        c_refresh := a_Refresh args;
        c_refreshExcludeOlder := a_RefreshExcludeOlder args |}.

(** The channel set of a session, as the specification gives it. *)
Definition channels (live : bool) : gset string :=
  {[SecretNameControl; SecretNameFilesystem]}
  ∪ (if live then {[SecretNameState]} else ∅).

(** What a run of [do] does that can be seen from outside, in order. *)
Inductive event : Type :=
| Debug (msg : string)
| LogError (msg : string) (err : error)
| WaitControl (conn : option migrationConn) (timeout : Z)
| SetOperation
| CallMigrateSend (args : MigrateArgs) (allowInconsistent : bool)
| CallMigrateReceive (args : MigrateArgs) (refresh : bool) (refreshExcludeOlder : Z)
| SendControl (err : error)
| Disconnect
| CancelContext.

Definition isTransfer (e : event) : bool :=
  match e with
  | CallMigrateSend _ _ | CallMigrateReceive _ _ _ => true
  | _ => false
  end.

(** [migrationSourceWs.do]: the returned error and the events, deferred
    calls included, in the order they happen. *)
Definition source_do (env : Env) (s : migrationSourceWs) : option error * list event :=
  let timeout := Second * 30 in
  let control := s_conns s !! SecretNameControl in
  let waiting := [Debug "Waiting for migration control connection on source";
                  WaitControl control timeout] in
  match WebSocket env control timeout with
  | Some err =>
      (Some (Wrap "Failed waiting for migration control connection on source" err),
       waiting ++ [CancelContext])
  | None =>
      let args := {| Snapshots := negb (s_instanceOnly s);
                     Live := s_live s;
                     ClusterMoveSourceName := s_clusterMoveSourceName s;
                     StoragePool := s_storagePool s |} in
      let started := waiting ++
                     [Debug "Migration control connection established on source";
                      SetOperation;
                      CallMigrateSend args (s_allowInconsistent s)] in
      let deferred := [Disconnect;
                       Debug "Migration channels disconnected on source";
                       CancelContext] in
      match MigrateSend env args (s_allowInconsistent s) with
      | Some err =>
          let errMsg := Wrap "Failed migration on source" err in
          (Some errMsg,
           started ++ [LogError "Failed migration on source" err; SendControl errMsg]
                   ++ deferred)
      | None => (None, started ++ deferred)
      end
  end%list.

(** [migrationSink.do]. *)
Definition sink_do (env : Env) (c : migrationSink) : option error * list event :=
  let timeout := Second * 30 in
  let control := c_conns c !! SecretNameControl in
  let waiting := [Debug "Waiting for migration control connection on target";
                  WaitControl control timeout] in
  match WebSocket env control timeout with
  | Some err =>
      (Some (Wrap "Failed waiting for migration control connection on target" err),
       waiting ++ [CancelContext])
  | None =>
      let args := {| Snapshots := negb (c_instanceOnly c);
                     Live := c_live c;
                     ClusterMoveSourceName := c_clusterMoveSourceName c;
                     StoragePool := c_storagePool c |} in
      let started := waiting ++
                     [Debug "Migration control connection established on target";
                      CallMigrateReceive args (c_refresh c) (c_refreshExcludeOlder c)] in
      let deferred := (if c_push c then [Disconnect] else [])
                      ++ [Debug "Migration channels disconnected on target";
                          CancelContext] in
      match MigrateReceive env args (c_refresh c) (c_refreshExcludeOlder c) with
      | Some err =>
          let errMsg := Wrap "Failed migration on target" err in
          (Some errMsg,
           started ++ [LogError "Failed migration on target" err; SendControl errMsg]
                   ++ deferred)
      | None => (None, started ++ deferred)
      end
  end%list.

(** Sample data: a host without [criu] and one with it, on which the
    control connection never arrives; a running container; and a pull-mode
    sink. *)
Definition deadlineExceeded : error := Sentinel "context.DeadlineExceeded".

Definition hostWithoutCriu : Env :=
  {| LookPath := λ _, false;
     setupWebsocketDialer := λ cert, Ok (mkDialer cert);
     url_Parse := λ raw, Ok (mkURL raw);
     RandomHexString := λ k, Ok (String (ascii_of_nat (97 + k)) "f00d");
     WebSocket := λ _ _, Some deadlineExceeded;
     MigrateSend := λ _ _, None;
     MigrateReceive := λ _ _ _, None |}.

Definition hostWithCriu : Env :=
  {| LookPath := λ name, bool_decide (name = "criu");
     setupWebsocketDialer := λ cert, Ok (mkDialer cert);
     url_Parse := λ raw, Ok (mkURL raw);
     RandomHexString := λ k, Ok (String (ascii_of_nat (97 + k)) "f00d");
     WebSocket := λ _ _, Some deadlineExceeded;
     MigrateSend := λ _ _, None;
     MigrateReceive := λ _ _ _, None |}.

Definition runningContainer : Instance := mkInstance "default" "c1" Container true.

Definition pullSinkArgs (live : bool) : migrationSinkArgs :=
  {| a_URL := "https://10.0.0.1:8443/1.0/operations/42";
     a_Dialer := Some (mkDialer "cert");
     a_Secrets := <["control" := "s1"]> (<["filesystem" := "s2"]> (<["state" := "s3"]> ∅));
     a_Push := false;
     a_Instance := runningContainer;
     a_InstanceOnly := false;
     a_ClusterMoveSourceName := "";
     a_Live := live;
     a_Refresh := false;
     a_RefreshExcludeOlder := 0;
     a_StoragePool := "" |}.

Definition pullSource : migrationSourceWs :=
  {| s_instance := runningContainer;
     s_allowInconsistent := false;
     s_storagePool := "";
     s_instanceOnly := false;
     s_live := false;
     s_conns := <["control" := newMigrationConn "s1" None None]>
                  (<["filesystem" := newMigrationConn "s2" None None]> ∅);
     s_clusterMoveSourceName := "";
     s_pushCertificate := "";
     s_pushOperationURL := "";
     s_pushSecrets := ∅ |}.

Definition pushSink : migrationSink :=
  {| c_instance := runningContainer;
     c_instanceOnly := false;
     c_live := false;
     c_storagePool := "";
     c_conns := <["control" := newMigrationConn "s1" None None]>
                  (<["filesystem" := newMigrationConn "s2" None None]> ∅);
     c_url := "";
     c_clusterMoveSourceName := "";
     c_push := true;
     c_refresh := false;
     c_refreshExcludeOlder := 0 |}.

End Migration.

(** ** Operations and image tokens *)

Module Operations.

(** [operationtype.Type], as far as the image code tells the types apart. *)
Inductive operationtype : Type := ImageToken | ImageDownload | ImageDelete | OtherOperation.

#[global] Instance operationtype_eq_dec : EqDecision operationtype.
Proof. solve_decision. Defined.

(** A value of a [map[string]any] metadata bag: a string, or anything else. *)
Inductive metaValue : Type :=
| MetaString (s : string)
| MetaOther (repr : string).

#[global] Instance metaValue_eq_dec : EqDecision metaValue.
Proof. solve_decision. Defined.

(** [api.Running.String()]. *)
Definition Running : string := "Running".

(** An operation as [operationsGetByType] renders it ([api.Operation]: ID,
    Status, Resources, Metadata), with the project and the type that the
    daemon keeps for it.  [op_Resources = None] is a nil map. *)
Record Operation : Type := mkOperation {
  op_ID : string;
  op_Project : string;
  op_Type : operationtype;
  op_Status : string;
  op_Resources : option (gmap string (list string));
  op_Metadata : gmap string metaValue
}.

#[global] Instance Operation_eq_dec : EqDecision Operation.
Proof. solve_decision. Defined.

(** The operations subsystem is outside the sources at hand.
    [imageValidSecret] calls it twice, and what the two calls do is a
    parameter: the subsystem has a state, [operationsGetByType] reads the
    operations of a project and a type from it, and [operationCancel]
    returns its error and the state after the call. *)
Record Subsystem (S : Type) : Type := mkSubsystem {
  operationsGetByType : S → string → operationtype → result (list Operation);
  operationCancel : S → string → Operation → option error * S
}.
Arguments mkSubsystem {S} _ _.
Arguments operationsGetByType {S} _ _ _ _.
Arguments operationCancel {S} _ _ _ _.

(** [version.APIVersion]. *)
Definition APIVersion : string := "1.0".

(** [api.NewURL().Path(version.APIVersion, "images", fingerprint).String()];
    path escaping leaves a hexadecimal fingerprint as it is. *)
Definition imageURL (fingerprint : string) : string :=
  "/" ++ APIVersion ++ "/images/" ++ fingerprint.

(** [util.StringPrefixInSlice]: some entry of the list starts with the key. *)
Definition StringPrefixInSlice (key : string) (l : list string) : bool :=
  existsb (λ entry, HasPrefix entry key) l.

(** The four [continue] tests and the comparison of the loop body. *)
Definition matches (fingerprint secret : string) (op : Operation) : bool :=
  match op_Resources op with
  | None => false
  | Some resources =>
      match resources !! "images" with
      | None => false
      | Some opImages =>
          if negb (StringPrefixInSlice (imageURL fingerprint) opImages) then false
          else
            match op_Metadata op !! "secret" with
            | None => false
            | Some opSecret => bool_decide (opSecret = MetaString secret)
            end
      end
  end.

(** The loop [for _, op := range ops]: the first operation that passes the
    tests ends it; a running one is cancelled first. *)
Fixpoint searchOps {S : Type} (sub : Subsystem S) (s : S) (projectName : string)
         (fingerprint secret : string) (ops : list Operation)
  : result (option Operation) * S :=
  match ops with
  | [] => (Ok None, s)
  | op :: rest =>
      if matches fingerprint secret op then
        if bool_decide (op_Status op = Running) then
          match operationCancel sub s projectName op with
          | (Some e, s') =>
              (Err (Wrap ("Failed to cancel operation " ++ fmt_q (op_ID op)) e), s')
          | (None, s') => (Ok (Some op), s')
          end
        else (Ok (Some op), s)
      else searchOps sub s projectName fingerprint secret rest
  end.

(** [imageValidSecret]: the result and the state of the subsystem
    afterwards. *)
Definition imageValidSecret {S : Type} (sub : Subsystem S) (s : S)
           (projectName fingerprint secret : string)
  : result (option Operation) * S :=
  match operationsGetByType sub s projectName ImageToken with
  | Err e => (Err (Wrap "Failed getting image token operations" e), s)
  | Ok ops => searchOps sub s projectName fingerprint secret ops
  end.


(** Modelled from the spec: [operationsGetByType] and [operationCancel] are
    outside the sources at hand.  The spec has [imageValidSecret] iterate
    the in-flight operations of one type, and has a cancellation consume
    the token.  In this subsystem the state is the list of the operations
    in flight; the listing gives those of the project and the type, and a
    cancellation takes the operation out of the list. *)
Definition inFlight : Subsystem (list Operation) :=
  {| operationsGetByType := λ all projectName opType,
       Ok (filter (λ op, op_Project op = projectName ∧ op_Type op = opType) all);
     operationCancel := λ all projectName op,
       (None, filter (λ o, op_ID o ≠ op_ID op) all) |}.


End Operations.

(** ** Image store *)

Module Images.

(** [time.Time] as nanoseconds since the zero time (1 January of year 1,
    UTC), so that [IsZero] is a comparison with 0.  [Add] on instants of
    this range never reaches the saturation of Go's [Time], and is plain
    addition; a [time.Duration] is a signed 64-bit count of nanoseconds, and
    its arithmetic wraps. *)
Definition IsZero (t : Z) : bool := t =? 0.
Definition After (t u : Z) : bool := u <? t.

Definition wrap64 (z : Z) : Z := (z + 2 ^ 63) mod 2 ^ 64 - 2 ^ 63.

Definition Hour : Z := 3600000000000.

(** [time.Duration(expiryDays) * time.Hour * 24]. *)
Definition expiryDuration (expiryDays : Z) : Z :=
  wrap64 (wrap64 (expiryDays * Hour) * 24).

(** [time.Unix(sec, 0)]. *)
Definition Unix (sec : Z) : Z := (sec + 62135596800) * 1000000000.

(** [strconv.ParseInt(s, 10, 64)]: an optional sign, then decimal digits,
    at least one, with a value in the signed 64-bit range. *)
Definition digit (c : ascii) : option Z :=
  let n := Z.of_nat (nat_of_ascii c) in
  if (48 <=? n) && (n <=? 57) then Some (n - 48) else None.

Fixpoint parseDigits (s : string) (acc : Z) : option Z :=
  match s with
  | EmptyString => Some acc
  | String c rest =>
      match digit c with
      | Some d => parseDigits rest (acc * 10 + d)
      | None => None
      end
  end.

Definition ErrSyntax : error := Sentinel "strconv.ErrSyntax".
Definition ErrRange : error := Sentinel "strconv.ErrRange".

Definition ParseInt (s : string) : result Z :=
  let '(neg, body) :=
    match s with
    | String "-" rest => (true, rest)
    | String "+" rest => (false, rest)
    | _ => (false, s)
    end in
  match body with
  | EmptyString => Err ErrSyntax
  | _ =>
      match parseDigits body 0 with
      | None => Err ErrSyntax
      | Some n =>
          if neg then (if n <=? 2 ^ 63 then Ok (- n) else Err ErrRange)
          else (if n <? 2 ^ 63 then Ok n else Err ErrRange)
      end
  end.

(** A row of the images table with its properties and profiles. *)
Record Image : Type := mkImage {
  img_ID : Z;
  img_Project : string;
  img_Fingerprint : string;
  img_Filename : string;
  img_Size : Z;
  img_Public : bool;
  img_AutoUpdate : bool;
  img_Cached : bool;
  img_Architecture : string;
  img_CreatedAt : Z;
  img_ExpiresAt : Z;
  img_LastUseDate : Z;
  img_UploadDate : Z;
  img_Properties : gmap string string;
  img_Type : string;
  img_Profiles : list Z;
  img_Aliases : list string
}.

Record Project : Type := mkProject {
  proj_Name : string;
  proj_Config : gmap string string
}.

(** What the image code sends out. *)
Inductive Event : Type :=
| Lifecycle (project action target : string)
| NotifyPeersDelete (project fingerprint : string)
| AuthorizerDeleteImage (project fingerprint : string)
| AuthorizerDeleteImageAlias (project alias : string).

(** The cluster database, the image directory and the storage pools, as far
    as the image code reads and writes them: the images and projects
    tables, the profiles by (project, name), the images held by this
    member, the image volumes by (pool, fingerprint), the paths under the
    var directory, and the events sent so far, oldest first. *)
Record State : Type := mkState {
  images : list Image;
  projects : list Project;
  profiles : gmap (string * string) Z;
  holders : list (string * string);
  volumes : list (string * string);
  files : gset string;
  events : list Event
}.

Definition setImages (st : State) (l : list Image) : State :=
  mkState l (projects st) (profiles st) (holders st) (volumes st) (files st) (events st).
Definition setHolders (st : State) (l : list (string * string)) : State :=
  mkState (images st) (projects st) (profiles st) l (volumes st) (files st) (events st).
Definition setVolumes (st : State) (l : list (string * string)) : State :=
  mkState (images st) (projects st) (profiles st) (holders st) l (files st) (events st).
Definition setFiles (st : State) (fs : gset string) : State :=
  mkState (images st) (projects st) (profiles st) (holders st) (volumes st) fs (events st).
Definition emit (st : State) (e : Event) : State :=
  mkState (images st) (projects st) (profiles st) (holders st) (volumes st) (files st)
          (events st ++ [e]).

(** The places where a call into the database, the storage layer, the file
    system or the cluster can fail. *)
Inductive site : Type :=
| TxProjects
| TxImages
| TxDeleteImage (id : Z)
| TxPoolsWithImage (fingerprint : string)
| LoadPool (pool : string)
| PoolDeleteImage (pool fingerprint : string)
| OsRemove (path : string)
| ImageOperationLock (fingerprint : string)
| TxImageExists
| TxReferenced
| Notifier
| TxGetImage
| TxUpdateImage (id : Z)
| TxGetProfile (name : string)
| TxAddImageToLocalNode
| TxCreateImage
| CreateTemp (k : nat)
| Seek
| CopyPart (k : nat)
| FileMove (dest : string)
| ReadBody.

(** [api.ImageMetadata], read from [metadata.yaml].  [meta_Properties] is
    [None] for the nil map of a file without properties. *)
Record ImageMetadata : Type := mkImageMetadata {
  meta_Architecture : string;
  meta_CreationDate : Z;
  meta_ExpiryDate : Z;
  meta_Properties : option (gmap string string)
}.

(** Of the instance that is published: its type, project and architecture
    names. *)
Record PublishedInstance : Type := mkPublishedInstance {
  pi_Type : string;
  pi_Project : string;
  pi_Architecture : string
}.

(** What packing an instance leaves behind: the fingerprint in hex, the
    size of the files, and the metadata of the export. *)
Record Built : Type := mkBuilt {
  b_Fingerprint : string;
  b_Size : Z;
  b_CreatedAt : Z;
  b_Meta : ImageMetadata
}.

(** The surroundings of a run:
    - [fault] makes a call fail;
    - [GlobalExpiryDays] is [images.remote_cache_expiry] of the server;
    - [nowAt id] is [time.Now()] at the moment the record [id] is examined;
    - [ctxDone k] tells whether the context is cancelled when the [k]-th
      fingerprint of the pruning pass is reached;
    - [poolRemote] is [pool.Driver().Info().Remote];
    - [sha256hex] is the SHA-256 of a byte string in lowercase hex;
    - [getImageMetadata] inspects a tarball, by its content;
    - [IsTrue] is [util.IsTrue], [IsSnapshot] is [internalInstance.IsSnapshot];
    - [LoadByProjectAndName] loads an instance, and [exportInstance] stands
      for the packing of an instance into the build directory in the given
      format: the walk, the export, the compression, the sizes and the hash. *)
Record Env : Type := mkEnv {
  fault : site → option error;
  GlobalExpiryDays : Z;
  nowAt : Z → Z;
  ctxDone : nat → bool;
  poolRemote : string → bool;
  sha256hex : list Byte.byte → string;
  getImageMetadata : list Byte.byte → result (ImageMetadata * string);
  IsTrue : string → bool;
  IsSnapshot : string → bool;
  LoadByProjectAndName : string → string → result PublishedInstance;
  exportInstance : PublishedInstance → string → result Built
}.

(** [filepath.Join(VarDir, "images", fingerprint)], relative to the var
    directory. *)
Definition imagePath (fingerprint : string) : string := "images/" ++ fingerprint.
Definition rootfsPath (fingerprint : string) : string := imagePath fingerprint ++ ".rootfs".

(** Modelled from the spec: the queries of the [db] package are outside the
    sources at hand.  [DeleteImage] drops the row with the id;
    [GetImages] with the [Cached] filter returns the cached rows;
    [GetPoolsWithImage] followed by [GetPoolNamesFromIDs] names the pools
    that have a volume for the fingerprint; [pool.DeleteImage] removes that
    volume. *)
Definition DeleteImage (st : State) (id : Z) : State :=
  setImages st (filter (λ i, img_ID i ≠ id) (images st)).

Definition GetCachedImages (st : State) : list Image :=
  filter (λ i, img_Cached i = true) (images st).

Definition poolNamesWithImage (st : State) (fingerprint : string) : list string :=
  fst <$> filter (λ v, v.2 = fingerprint) (volumes st).

Definition poolDeleteImage (st : State) (pool fingerprint : string) : State :=
  setVolumes st (filter (λ v, v ≠ (pool, fingerprint)) (volumes st)).

Definition removeFile (st : State) (path : string) : State :=
  setFiles st (files st ∖ {[path]}).

(** The first transaction of [pruneExpiredImages]: the expiry days of each
    project, keyed on the project name. *)
Fixpoint projectsExpiryDays (globalDays : Z) (ps : list Project)
         (acc : gmap string Z) : result (gmap string Z) :=
  match ps with
  | [] => Ok acc
  | p :: rest =>
      let v := default "" (proj_Config p !! "images.remote_cache_expiry") in
      if negb (bool_decide (v = "")) then
        match ParseInt v with
        | Err e => Err (Wrap "Unable to fetch project configuration" e)
        | Ok expiry => projectsExpiryDays globalDays rest (<[proj_Name p := expiry]> acc)
        end
      else projectsExpiryDays globalDays rest (<[proj_Name p := globalDays]> acc)
  end.

(** [allImages]: the cached rows keyed on fingerprint.  Go ranges over the
    map in an unspecified order; here the fingerprints come in the order of
    their first row. *)
Definition groupImages (imgs : list Image) : list (string * list Image) :=
  (λ fp, (fp, filter (λ i, img_Fingerprint i = fp) imgs))
    <$> remove_dups (img_Fingerprint <$> imgs).

(** The expiry instant of a row of a project with [expiryDays] days. *)
Definition imageExpiry (dbImage : Image) (expiryDays : Z) : Z :=
  let timestamp := if negb (IsZero (img_LastUseDate dbImage))
                   then img_LastUseDate dbImage
                   else img_UploadDate dbImage in
  timestamp + expiryDuration expiryDays.

(** The two [continue] tests of the inner loop: the row is due. *)
Definition expired (env : Env) (days : gmap string Z) (dbImage : Image) : bool :=
  let expiryDays := default 0 (days !! img_Project dbImage) in
  if expiryDays <=? 0 then false
  else negb (After (imageExpiry dbImage expiryDays) (nowAt env (img_ID dbImage))).

(** A row is due when the two tests of the inner loop let it through. *)
Definition due (env : Env) (days : gmap string Z) (i : Image) : Prop :=
  expired env days i = true.

(** All cached rows of a fingerprint are due, and there is one. *)
Definition allDue (env : Env) (days : gmap string Z) (st : State) (fingerprint : string)
  : Prop :=
  (∃ i, i ∈ images st ∧ img_Cached i = true ∧ img_Fingerprint i = fingerprint)
  ∧ ∀ i, i ∈ images st → img_Cached i = true → img_Fingerprint i = fingerprint →
         due env days i.

(** The inner loop [for _, dbImage := range dbImages]: the error if a
    deletion failed, the number of rows deleted, and the state. *)
Fixpoint pruneRecords (env : Env) (days : gmap string Z) (fingerprint : string)
         (dbImages : list Image) (dbImagesDeleted : nat) (st : State)
  : option error * nat * State :=
  match dbImages with
  | [] => (None, dbImagesDeleted, st)
  | dbImage :: rest =>
      if expired env days dbImage then
        match fault env (TxDeleteImage (img_ID dbImage)) with
        | Some e =>
            (Some (Wrap ("Error deleting image " ++ fmt_q fingerprint ++ " in project "
                         ++ fmt_q (img_Project dbImage) ++ " from database") e),
             dbImagesDeleted, st)
        | None =>
            let st := DeleteImage st (img_ID dbImage) in
            let st := emit st (Lifecycle (img_Project dbImage) "image-deleted" fingerprint) in
            pruneRecords env days fingerprint rest (S dbImagesDeleted) st
        end
      else pruneRecords env days fingerprint rest dbImagesDeleted st
  end.

(** The loop [for _, poolName := range poolNames]. *)
Fixpoint pruneVolumes (env : Env) (fingerprint : string) (poolNames : list string)
         (st : State) : option error * State :=
  match poolNames with
  | [] => (None, st)
  | poolName :: rest =>
      match fault env (LoadPool poolName) with
      | Some e =>
          (Some (Wrap ("Error loading storage pool " ++ fmt_q poolName
                       ++ " to delete image volume " ++ fmt_q fingerprint) e), st)
      | None =>
          match fault env (PoolDeleteImage poolName fingerprint) with
          | Some e =>
              (Some (Wrap ("Error deleting image volume " ++ fmt_q fingerprint
                           ++ " from storage pool " ++ fmt_q poolName) e), st)
          | None => pruneVolumes env fingerprint rest (poolDeleteImage st poolName fingerprint)
          end
      end
  end.

(** The part of the outer loop body after the inner loop, for a fingerprint
    all of whose rows were deleted. *)
Definition pruneBlob (env : Env) (fingerprint : string) (st : State)
  : option error * State :=
  match fault env (TxPoolsWithImage fingerprint) with
  | Some _ => (None, st)
  | None =>
      match pruneVolumes env fingerprint (poolNamesWithImage st fingerprint) st with
      | (Some e, st) => (Some e, st)
      | (None, st) =>
          match fault env (OsRemove (imagePath fingerprint)) with
          | Some e =>
              (Some (Wrap ("Error deleting image file " ++ fmt_q (imagePath fingerprint)) e),
               st)
          | None =>
              let st := removeFile st (imagePath fingerprint) in
              match fault env (OsRemove (rootfsPath fingerprint)) with
              | Some e =>
                  (Some (Wrap ("Error deleting image file "
                               ++ fmt_q (rootfsPath fingerprint)) e), st)
              | None => (None, removeFile st (rootfsPath fingerprint))
              end
          end
      end
  end.

(** The outer loop [for fingerprint, dbImages := range allImages]; [k] is
    the number of the iteration. *)
Fixpoint pruneGroups (env : Env) (days : gmap string Z)
         (groups : list (string * list Image)) (k : nat) (st : State)
  : option error * State :=
  match groups with
  | [] => (None, st)
  | (fingerprint, dbImages) :: rest =>
      if ctxDone env k then (None, st)
      else
        match pruneRecords env days fingerprint dbImages 0 st with
        | (Some e, _, st) => (Some e, st)
        | (None, dbImagesDeleted, st) =>
            if (dbImagesDeleted <? length dbImages)%nat
            then pruneGroups env days rest (S k) st
            else
              match pruneBlob env fingerprint st with
              | (Some e, st) => (Some e, st)
              | (None, st) => pruneGroups env days rest (S k) st
              end
        end
  end.

(** Modelled from the spec: [ImageExists], [ImageIsReferencedByOtherProjects]
    and [GetImage] of the [db] package are outside the sources at hand.  A
    fingerprint given to [GetImage] may be a unique prefix. *)
Definition ImageExists (st : State) (project fingerprint : string) : bool :=
  bool_decide (Exists (λ i, img_Project i = project ∧ img_Fingerprint i = fingerprint)
                      (images st)).

Definition ImageIsReferencedByOtherProjects (st : State) (project fingerprint : string)
  : bool :=
  bool_decide (Exists (λ i, img_Project i ≠ project ∧ img_Fingerprint i = fingerprint)
                      (images st)).

Definition ErrImageNotFound : error := Sentinel "404 Image not found".

Definition IsNotFoundError (e : error) : bool := bool_decide (e = ErrImageNotFound).

Definition GetImage (env : Env) (st : State) (fingerprint project : string)
  : result Image :=
  match fault env TxGetImage with
  | Some e => Err e
  | None =>
      match filter (λ i, img_Project i = project
                         ∧ HasPrefix (img_Fingerprint i) fingerprint = true) (images st) with
      | [] => Err ErrImageNotFound
      | [i] => Ok i
      | _ => Err (errors_New "More than one image matches")
      end
  end.

(** The answer of a handler; [OperationDone] stands for the operation that
    the handler starts, with the error its run ended with. *)
Inductive Response : Type :=
| EmptySyncResponse
| OperationDone (err : option error)
| SmartError (err : error)
| PreconditionFailed (err : error)
| BadRequest (err : error)
| InternalError (err : error)
| Panicked.

(** The loop over the pools of [imageDelete]. *)
Fixpoint deleteVolumes (env : Env) (notification : bool) (fingerprint : string)
         (poolNames : list string) (st : State) : option error * State :=
  match poolNames with
  | [] => (None, st)
  | poolName :: rest =>
      match fault env (LoadPool poolName) with
      | Some e =>
          (Some (Wrap ("Error loading storage pool " ++ fmt_q poolName
                       ++ " to delete image " ++ fmt_q fingerprint) e), st)
      | None =>
          if negb notification || negb (poolRemote env poolName) then
            match fault env (PoolDeleteImage poolName fingerprint) with
            | Some e =>
                (Some (Wrap ("Error deleting image " ++ fmt_q fingerprint
                             ++ " from storage pool " ++ fmt_q poolName) e), st)
            | None =>
                deleteVolumes env notification fingerprint rest
                  (poolDeleteImage st poolName fingerprint)
            end
          else deleteVolumes env notification fingerprint rest st
      end
  end.

(** [imageDeleteFromDisk]: a failed removal is only logged. *)
Definition imageDeleteFromDisk (env : Env) (fingerprint : string) (st : State) : State :=
  let remove path st :=
    if bool_decide (path ∈ files st) then
      match fault env (OsRemove path) with
      | Some _ => st
      | None => removeFile st path
      end
    else st in
  remove (rootfsPath fingerprint) (remove (imagePath fingerprint) st).

(** The part of [do] from the pool volumes on. *)
Definition deletePhysically (env : Env) (notification : bool) (imgInfo : Image)
           (st : State) : option error * State :=
  let fingerprint := img_Fingerprint imgInfo in
  match fault env (TxPoolsWithImage fingerprint) with
  | Some e => (Some e, st)
  | None =>
      match deleteVolumes env notification fingerprint
                          (poolNamesWithImage st fingerprint) st with
      | (Some e, st) => (Some e, st)
      | (None, st) =>
          let removed :=
            if negb notification then
              match fault env (TxDeleteImage (img_ID imgInfo)) with
              | Some e => Err (Wrap "Error deleting image info from the database" e)
              | None => Ok (DeleteImage st (img_ID imgInfo))
              end
            else Ok st in
          match removed with
          | Err e => (Some e, st)
          | Ok st => (None, imageDeleteFromDisk env fingerprint st)
          end
      end
  end.

(** The events of a deletion that is not a notification and goes through:
    the peers, the authorizer and the lifecycle. *)
Definition announceDeletion (projectName : string) (imgInfo : Image) (st : State) : State :=
  let st := emit st (NotifyPeersDelete projectName (img_Fingerprint imgInfo)) in
  let st := foldl (λ st alias,
                     emit (emit st (AuthorizerDeleteImageAlias projectName alias))
                          (Lifecycle projectName "image-alias-deleted" alias))
                  st (img_Aliases imgInfo) in
  let st := emit st (AuthorizerDeleteImage projectName (img_Fingerprint imgInfo)) in
  emit st (Lifecycle projectName "image-deleted" (img_Fingerprint imgInfo)).

(** The closure [do] of [imageDelete], for the image that the handler
    resolved. *)
Definition imageDelete_do (env : Env) (notification : bool) (projectName : string)
           (imgInfo : Image) (st : State) : option error * State :=
  let fingerprint := img_Fingerprint imgInfo in
  match fault env (ImageOperationLock fingerprint) with
  | Some e => (Some e, st)
  | None =>
      match fault env TxImageExists with
      | Some e => (Some e, st)
      | None =>
          if negb (ImageExists st projectName fingerprint)
          then (Some ErrImageNotFound, st)
          else if negb notification then
            match fault env TxReferenced with
            | Some e => (Some e, st)
            | None =>
                if ImageIsReferencedByOtherProjects st projectName fingerprint then
                  match fault env (TxDeleteImage (img_ID imgInfo)) with
                  | Some e =>
                      (Some (Wrap "Error deleting image info from the database" e), st)
                  | None => (None, DeleteImage st (img_ID imgInfo))
                  end
                else
                  match fault env Notifier with
                  | Some e => (Some e, st)
                  | None =>
                      deletePhysically env notification imgInfo
                        (announceDeletion projectName imgInfo st)
                  end
            end
          else deletePhysically env notification imgInfo st
      end
  end.

(** [imageDelete]: resolve the fingerprint, then run [do]. *)
Definition imageDelete (env : Env) (notification : bool)
           (projectName fingerprint : string) (st : State) : Response * State :=
  match GetImage env st fingerprint projectName with
  | Err e => (SmartError e, st)
  | Ok imgInfo =>
      let '(err, st) := imageDelete_do env notification projectName imgInfo st in
      (OperationDone err, st)
  end.

(** Modelled from the spec: [UpdateImage], [CreateImage],
    [AddImageToLocalNode] and [GetProfile] of the [db] package are outside
    the sources at hand.  [UpdateImage] writes the fields it is given to the
    row with the id, and the profiles only for a named project;
    [CreateImage] adds a row that is not cached; [AddImageToLocalNode]
    registers this member as a holder of the image and writes nothing else. *)
Definition UpdateImage (st : State) (id : Z) (fname : string) (sz : Z)
           (public autoUpdate : bool) (architecture : string) (createdAt expiresAt : Z)
           (properties : gmap string string) (project : string)
           (profileIds : option (list Z)) : State :=
  setImages st
    ((λ i, if bool_decide (img_ID i = id) then
             {| img_ID := img_ID i;
                img_Project := img_Project i;
                img_Fingerprint := img_Fingerprint i;
                img_Filename := fname;
                img_Size := sz;
                img_Public := public;
                img_AutoUpdate := autoUpdate;
                img_Cached := img_Cached i;
                img_Architecture := architecture;
                img_CreatedAt := createdAt;
                img_ExpiresAt := expiresAt;
                img_LastUseDate := img_LastUseDate i;
                img_UploadDate := img_UploadDate i;
                img_Properties := properties;
                img_Type := img_Type i;
                img_Profiles := match profileIds with
                                | Some ids =>
                                    if bool_decide (project = "") then img_Profiles i else ids
                                | None => img_Profiles i
                                end;
                img_Aliases := img_Aliases i |}
           else i) <$> images st).

Definition freshID (st : State) : Z :=
  1 + foldr Z.max 0 (img_ID <$> images st).

Definition CreateImage (env : Env) (st : State) (project fp fname : string) (sz : Z)
           (public autoUpdate : bool) (architecture : string) (createdAt expiresAt : Z)
           (properties : gmap string string) (typeName : string)
           (profileIds : list Z) : State :=
  let id := freshID st in
  setImages st
    (images st ++
     [{| img_ID := id;
         img_Project := project;
         img_Fingerprint := fp;
         img_Filename := fname;
         img_Size := sz;
         img_Public := public;
         img_AutoUpdate := autoUpdate;
         img_Cached := false;
         img_Architecture := architecture;
         img_CreatedAt := createdAt;
         img_ExpiresAt := expiresAt;
         img_LastUseDate := 0;
         img_UploadDate := nowAt env id;
         img_Properties := properties;
         img_Type := typeName;
         img_Profiles := profileIds;
         img_Aliases := [] |}]).

Definition AddImageToLocalNode (st : State) (project fingerprint : string) : State :=
  setHolders st (holders st ++ [(project, fingerprint)]).

(** The body of a PATCH as the two decoders see it: a key is absent, or it
    holds a value of the type that [api.ImagePut] wants, or [null], or
    something else. *)
Inductive rawBool : Type := RawBool (b : bool) | RawNullBool | RawNotBool.
Inductive rawProps : Type :=
| RawProps (m : gmap string string)
| RawNullProps
| RawNotProps.

Record PatchBody : Type := mkPatchBody {
  raw_auto_update : option rawBool;
  raw_public : option rawBool;
  raw_properties : option rawProps;
  raw_others_decode : bool
}.

(** A PATCH request: the fingerprint of the path after unescaping, the
    verdict of [EtagCheck] on an etag, and the body as the decoder of the
    raw map reads it.  [pr_body] is [None] when that decoder fails: the body
    is empty, does not start with a JSON value, or starts with a JSON value
    that is neither an object nor [null].  The body [null] decodes without
    an error, to a nil map and to the zero [api.ImagePut]: it is the body
    without keys, [nullBody]. *)
Record PatchRequest : Type := mkPatchRequest {
  pr_fingerprint : result string;
  pr_EtagCheck : bool → bool → gmap string string → option error;
  pr_body : option PatchBody
}.

(** The bodies [null] and [{}]. *)
Definition nullBody : PatchBody :=
  {| raw_auto_update := None; raw_public := None; raw_properties := None;
     raw_others_decode := true |}.

(** Decoding into [api.ImagePut] fails on a value of the wrong type. *)
Definition boolDecodes (v : option rawBool) : bool :=
  match v with Some RawNotBool => false | _ => true end.

Definition propsDecode (v : option rawProps) : bool :=
  match v with Some RawNotProps => false | _ => true end.

Definition decodesToImagePut (b : PatchBody) : bool :=
  boolDecodes (raw_auto_update b) && boolDecodes (raw_public b)
  && propsDecode (raw_properties b) && raw_others_decode b.

(** [reqRaw.GetBool(key)] succeeds on a boolean only. *)
Definition GetBool (v : option rawBool) : option bool :=
  match v with Some (RawBool b) => Some b | _ => None end.

(** The merge of the properties: [None] is the write to a nil map. *)
Definition patchProperties (v : option rawProps) (stored : gmap string string)
  : option (gmap string string) :=
  match v with
  | None => Some stored
  | Some (RawProps m) => Some (m ∪ stored)
  | Some _ => if bool_decide (stored = ∅) then Some ∅ else None
  end.

Definition imagePatch (env : Env) (projectName : string) (r : PatchRequest)
           (st : State) : Response * State :=
  match pr_fingerprint r with
  | Err e => (SmartError e, st)
  | Ok fingerprint =>
      match GetImage env st fingerprint projectName with
      | Err e => (SmartError e, st)
      | Ok info =>
          match pr_EtagCheck r (img_Public info) (img_AutoUpdate info)
                             (img_Properties info) with
          | Some e => (PreconditionFailed e, st)
          | None =>
              match fault env ReadBody with
              | Some e => (InternalError e, st)
              | None =>
                  match pr_body r with
                  | None => (BadRequest (Sentinel "json decode error"), st)
                  | Some body =>
                      if negb (decodesToImagePut body)
                      then (BadRequest (Sentinel "json unmarshal type error"), st)
                      else
                        let autoUpdate := default (img_AutoUpdate info)
                                                  (GetBool (raw_auto_update body)) in
                        let public := default (img_Public info)
                                              (GetBool (raw_public body)) in
                        match patchProperties (raw_properties body)
                                              (img_Properties info) with
                        | None => (Panicked, st)
                        | Some properties =>
                            match fault env (TxUpdateImage (img_ID info)) with
                            | Some e => (SmartError e, st)
                            | None =>
                                let st := UpdateImage st (img_ID info) (img_Filename info)
                                            (img_Size info) public autoUpdate
                                            (img_Architecture info) (img_CreatedAt info)
                                            (img_ExpiresAt info) properties "" None in
                                (EmptySyncResponse,
                                 emit st (Lifecycle projectName "image-updated"
                                                    (img_Fingerprint info)))
                            end
                        end
                  end
              end
          end
      end
  end.

(** [instancetype.Container.String()] and [instancetype.VM.String()]. *)
Definition ContainerString : string := "container".
Definition VMString : string := "virtual-machine".

(** A part of a multipart body. *)
Record Part : Type := mkPart {
  FormName : string;
  FileName : string;
  partData : list Byte.byte
}.

(** A value that the code reads from a [map[string]any] with a type
    assertion [v.(T)]: of the type [T], or of another type, where the
    assertion panics. *)
Inductive asserted (T : Type) : Type :=
| OfType (v : T)
| OtherType.
Arguments OfType {T} _.
Arguments OtherType {T}.

(** The metadata of the token operation that authorised an upload, under
    the three keys that [getImgPostInfo] reads; [None] is a key that is
    absent, as all are without a token.  A value of the type
    [map[string]string] can be the nil map, [None]. *)
Record TokenMetadata : Type := mkTokenMetadata {
  tm_expires_at : option (asserted Z);
  tm_properties : option (asserted (option (gmap string string)));
  tm_public : option (asserted bool)
}.


(** An upload: the headers that [getImgPostInfo] reads (the url-encoded
    ones as [url.ParseQuery] delivers them), the media type of the content
    type if it parses, the marker of a cluster notification, the parts that
    the multipart reader yields in turn, and the bytes of the stored body. *)
Record UploadRequest : Type := mkUploadRequest {
  h_public : string;
  h_properties : list (list (string * string));
  h_profiles : option (list string);
  h_aliases : option (list string);
  h_fingerprint : string;
  h_filename : string;
  u_mediaType : result string;
  u_notification : bool;
  u_parts : list Part;
  u_post : list Byte.byte
}.

(** [api.Image], as far as the ingestion fills it. *)
Record ImageInfo : Type := mkImageInfo {
  Fingerprint : string;
  Filename : string;
  Size : Z;
  Public : bool;
  AutoUpdate : bool;
  Architecture : string;
  CreatedAt : Z;
  ExpiresAt : Z;
  Properties : gmap string string;
  Type_ : string;
  Aliases : list string
}.

(** How a run of [getImgPostInfo] can panic: a type assertion on the value
    under a key of the token metadata, or a write to a nil map. *)
Inductive panic : Type :=
| InterfaceConversion (key : string)
| NilMapWrite.

(** What a run of [getImgPostInfo] ends with: it returns the image or nil
    and the error or nil, or it panics; and the state then. *)
Inductive ending : Type :=
| Returns (info : option ImageInfo) (err : option error) (st : State)
| Panics (p : panic) (st : State).

Definition ErrInvalidMultipart : error := errors_New "Invalid multipart image".
Definition ErrEOF : error := Sentinel "io.EOF".

Definition ErrFingerprintMismatch (got expected : string) : error :=
  errors_New ("fingerprints don't match, got " ++ got ++ " expected " ++ expected).

(** What the first half of [getImgPostInfo] hands to the second: the
    fingerprint, file name, size and type, and the metadata of the image. *)
Record Received : Type := mkReceived {
  rc_Fingerprint : string;
  rc_Filename : string;
  rc_Size : Z;
  rc_Type : string;
  rc_Meta : ImageMetadata
}.

(** The branch [ctype == "multipart/form-data"]. *)
Definition receiveMultipart (env : Env) (r : UploadRequest) (st : State)
  : result Received * State :=
  match fault env (CreateTemp 1) with
  | Some e => (Err e, st)
  | None =>
  match fault env Seek with
  | Some e => (Err e, st)
  | None =>
  match u_parts r with
  | [] => (Err ErrEOF, st)
  | part1 :: parts =>
  if negb (bool_decide (FormName part1 = "metadata")) then (Err ErrInvalidMultipart, st)
  else
  match fault env (CopyPart 1) with
  | Some e => (Err e, st)
  | None =>
  let hash256 := partData part1 in
  let size1 := Z.of_nat (length (partData part1)) in
  match parts with
  | [] => (Err ErrEOF, st)
  | part2 :: _ =>
  match (if bool_decide (FormName part2 = "rootfs") then Some ContainerString
         else if bool_decide (FormName part2 = "rootfs.img") then Some VMString
         else None) with
  | None => (Err ErrInvalidMultipart, st)
  | Some typeName =>
  match fault env (CreateTemp 2) with
  | Some e => (Err e, st)
  | None =>
  match fault env (CopyPart 2) with
  | Some e => (Err e, st)
  | None =>
  let hash256 := (hash256 ++ partData part2)%list in
  let size := size1 + Z.of_nat (length (partData part2)) in
  let fingerprint := sha256hex env hash256 in
  if negb (bool_decide (h_fingerprint r = ""))
     && negb (bool_decide (fingerprint = h_fingerprint r))
  then (Err (ErrFingerprintMismatch fingerprint (h_fingerprint r)), st)
  else
  match getImageMetadata env (partData part1) with
  | Err e => (Err e, st)
  | Ok (imageMeta, _) =>
  match fault env (FileMove (imagePath fingerprint)) with
  | Some e => (Err e, st)
  | None =>
  let st := setFiles st ({[imagePath fingerprint]} ∪ files st) in
  match fault env (FileMove (rootfsPath fingerprint)) with
  | Some e => (Err e, st)
  | None =>
  let st := setFiles st ({[rootfsPath fingerprint]} ∪ files st) in
  (Ok (mkReceived fingerprint (FileName part2) size typeName imageMeta), st)
  end end end end end end end end end end end.

(** The other branch: one tarball. *)
Definition receiveTarball (env : Env) (r : UploadRequest) (st : State)
  : result Received * State :=
  match fault env Seek with
  | Some e => (Err e, st)
  | None =>
  match fault env (CopyPart 0) with
  | Some e => (Err e, st)
  | None =>
  let size := Z.of_nat (length (u_post r)) in
  let fingerprint := sha256hex env (u_post r) in
  if negb (bool_decide (h_fingerprint r = ""))
     && negb (bool_decide (fingerprint = h_fingerprint r))
  then (Err (ErrFingerprintMismatch fingerprint (h_fingerprint r)), st)
  else
  match getImageMetadata env (u_post r) with
  | Err e => (Err e, st)
  | Ok (imageMeta, imageType) =>
  match fault env (FileMove (imagePath fingerprint)) with
  | Some e => (Err e, st)
  | None =>
  let st := setFiles st ({[imagePath fingerprint]} ∪ files st) in
  (Ok (mkReceived fingerprint (h_filename r) size imageType imageMeta), st)
  end end end end.

(** The profile ids of the [X-Incus-profiles] header. *)
Fixpoint profileIDs (env : Env) (st : State) (project : string) (names : list string)
  : result (list Z) :=
  match names with
  | [] => Ok []
  | val :: rest =>
      match fault env (TxGetProfile val) with
      | Some e => Err e
      | None =>
          match profiles st !! (project, val) with
          | None => Err (errors_New ("Profile '" ++ val ++ "' doesn't exist"))
          | Some profileID => ids ← profileIDs env st project rest; Ok (profileID :: ids)
          end
      end
  end.

(** The type assertion [v.(T)]: [None] is the panic. *)
Definition assertType {T : Type} (v : asserted T) : option T :=
  match v with
  | OfType v => Some v
  | OtherType => None
  end.

(** The writes [info.Properties[pkey] = pval[0]] for the pairs of the
    property headers; the outer [None] is the write to a nil map, and a nil
    map that is not written to stays nil. *)
Definition setProperties (properties : option (gmap string string))
           (headers : list (list (string * string)))
  : option (option (gmap string string)) :=
  match properties with
  | Some m =>
      Some (Some (foldl (λ props header,
                           foldl (λ props kv, <[kv.1 := kv.2]> props) props header)
                        m headers))
  | None =>
      if forallb (λ header, bool_decide (header = [])) headers then Some None else None
  end.

(** [getImgPostInfo]: how the run ends, and the state then. *)
Definition getImgPostInfo (env : Env) (r : UploadRequest) (project : string)
           (metadata : TokenMetadata) (st : State) : ending :=
  let ctype := match u_mediaType r with
               | Ok ctype => ctype
               | Err _ => "application/octet-stream"
               end in
  let received := if bool_decide (ctype = "multipart/form-data")
                  then receiveMultipart env r st
                  else receiveTarball env r st in
  match received with
  | (Err e, st) => Returns None (Some e) st
  | (Ok rc, st) =>
      let imageMeta := rc_Meta rc in
      let createdAt := if 0 <? meta_CreationDate imageMeta
                       then Unix (meta_CreationDate imageMeta) else 0 in
      match (match tm_expires_at metadata with
             | Some expiresAt => assertType expiresAt
             | None => Some (if 0 <? meta_ExpiryDate imageMeta
                             then Unix (meta_ExpiryDate imageMeta) else 0)
             end) with
      | None => Panics (InterfaceConversion "expires_at") st
      | Some expiresAt =>
      match (match tm_properties metadata with
             | Some properties => assertType properties
             | None => Some (meta_Properties imageMeta)
             end) with
      | None => Panics (InterfaceConversion "properties") st
      | Some properties =>
      match setProperties properties (h_properties r) with
      | None => Panics NilMapWrite st
      | Some properties =>
      let properties := default ∅ properties in
      let aliases := default [] (h_aliases r) in
      let info public :=
        {| Fingerprint := rc_Fingerprint rc;
           Filename := rc_Filename rc;
           Size := rc_Size rc;
           Public := public;
           AutoUpdate := false;
           Architecture := meta_Architecture imageMeta;
           CreatedAt := createdAt;
           ExpiresAt := expiresAt;
           Properties := properties;
           Type_ := rc_Type rc;
           Aliases := aliases |} in
      let headerPublic := IsTrue env (h_public r) in
      match profileIDs env st project (default [] (h_profiles r)) with
      | Err e => Returns None (Some e) st
      | Ok profileIds =>
          match fault env TxImageExists with
          | Some e => Returns None (Some e) st
          | None =>
              if ImageExists st project (rc_Fingerprint rc) then
                if u_notification r then
                  match fault env TxAddImageToLocalNode with
                  | Some e => Returns None (Some e) st
                  | None =>
                      Returns (Some (info headerPublic)) None
                              (AddImageToLocalNode st project (rc_Fingerprint rc))
                  end
                else
                  Returns (Some (info headerPublic))
                          (Some (errors_New "Image with same fingerprint already exists"))
                          st
              else
                match (match tm_public metadata with
                       | Some public => assertType public
                       | None => Some headerPublic
                       end) with
                | None => Panics (InterfaceConversion "public") st
                | Some public =>
                match fault env TxCreateImage with
                | Some e => Returns None (Some e) st
                | None =>
                    Returns (Some (info public)) None
                      (CreateImage env st project (rc_Fingerprint rc) (rc_Filename rc)
                         (rc_Size rc) public false (meta_Architecture imageMeta)
                         createdAt expiresAt properties (rc_Type rc) profileIds)
                end
                end
          end
      end
      end end end
  end.

(** The request of an instance publish. *)
Record PublishRequest : Type := mkPublishRequest {
  pub_SourceType : string;
  pub_SourceName : string;
  pub_Format : string;
  pub_Filename : string;
  pub_Public : bool;
  pub_notification : bool
}.

(** [imgPostInstanceInfo], for the project of the request. *)
Definition imgPostInstanceInfo (env : Env) (req : PublishRequest) (projectName : string)
           (st : State) : option ImageInfo * option error * State :=
  let name := pub_SourceName req in
  let ctype := pub_SourceType req in
  let imageType := pub_Format req in
  if bool_decide (ctype = "") || bool_decide (name = "")
  then (None, Some (errors_New "No source provided"), st)
  else if negb (bool_decide (imageType = "")) && negb (bool_decide (imageType = "unified"))
          && negb (bool_decide (imageType = "split"))
  then (None, Some (errors_New "Invalid image format"), st)
  else
    let sourceCheck :=
      if bool_decide (ctype = "snapshot") then
        if negb (IsSnapshot env name) then Some (errors_New "Not a snapshot") else None
      else if bool_decide (ctype = "container") || bool_decide (ctype = "virtual-machine")
              || bool_decide (ctype = "instance") then
        if IsSnapshot env name then Some (errors_New "This is a snapshot") else None
      else Some (errors_New "Bad type") in
    match sourceCheck with
    | Some e => (None, Some e, st)
    | None =>
    match LoadByProjectAndName env projectName name with
    | Err e => (None, Some e, st)
    | Ok c =>
    match exportInstance env c imageType with
    | Err e => (None, Some e, st)
    | Ok built =>
    let meta := b_Meta built in
    let info properties architecture :=
      {| Fingerprint := b_Fingerprint built;
         Filename := pub_Filename req;
         Size := b_Size built;
         Public := pub_Public req;
         AutoUpdate := false;
         Architecture := architecture;
         CreatedAt := b_CreatedAt built;
         ExpiresAt := if bool_decide (meta_ExpiryDate meta = 0) then 0
                      else Unix (meta_ExpiryDate meta);
         Properties := properties;
         Type_ := pi_Type c;
         Aliases := [] |} in
    let lookup := GetImage env st (b_Fingerprint built) projectName in
    match lookup with
    | Ok _ =>
        (Some (info ∅ ""),
         Some (errors_New ("The image already exists: " ++ b_Fingerprint built)), st)
    | Err e =>
        if negb (IsNotFoundError e) then (None, Some e, st)
        else
        match fault env (FileMove (imagePath (b_Fingerprint built))) with
        | Some e => (None, Some e, st)
        | None =>
        let st := setFiles st ({[imagePath (b_Fingerprint built)]} ∪ files st) in
        let moved :=
          if bool_decide (imageType = "split") then
            match fault env (FileMove (rootfsPath (b_Fingerprint built))) with
            | Some e => Err e
            | None => Ok (setFiles st ({[rootfsPath (b_Fingerprint built)]} ∪ files st))
            end
          else Ok st in
        match moved with
        | Err e => (None, Some e, st)
        | Ok st =>
            let final := info (default ∅ (meta_Properties meta)) (pi_Architecture c) in
            match fault env TxCreateImage with
            | Some e => (None, Some e, st)
            | None =>
                (Some final, None,
                 CreateImage env st (pi_Project c) (Fingerprint final) (Filename final)
                   (Size final) (Public final) (AutoUpdate final) (Architecture final)
                   (CreatedAt final) (ExpiresAt final) (Properties final) (Type_ final) [])
            end
        end
        end
    end
    end end end.

Definition pruneExpiredImages (env : Env) (st : State) : option error * State :=
  let loaded :=
    match fault env TxProjects with
    | Some e => Err e
    | None =>
        days ← projectsExpiryDays (GlobalExpiryDays env) (projects st) ∅;
        match fault env TxImages with
        | Some e => Err (Wrap "Failed getting images" e)
        | None => Ok (days, groupImages (GetCachedImages st))
        end
    end in
  match loaded with
  | Err e => (Some (Wrap "Unable to retrieve project names" e), st)
  | Ok (days, allImages) => pruneGroups env days allImages 0 st
  end.

(** Sample data.  A quiet environment: nothing fails, the global expiry is
    ten days, and it is day 1002 of the sample clock.  The digest of the
    sample is a stand-in that only counts the bytes: [f1] for one byte. *)
Definition Day : Z := 24 * Hour.

Definition sampleMeta : ImageMetadata :=
  {| meta_Architecture := "x86_64";
     meta_CreationDate := 1700000000;
     meta_ExpiryDate := 0;
     meta_Properties := Some {["os" := "Alpine"]} |}.

Definition quiet : Env :=
  {| fault := λ _, None;
     GlobalExpiryDays := 10;
     nowAt := λ _, 1002 * Day;
     ctxDone := λ _, false;
     poolRemote := λ _, false;
     sha256hex := λ bs, String "f" (String (ascii_of_nat (48 + length bs)) EmptyString);
     getImageMetadata := λ _, Ok (sampleMeta, "container");
     IsTrue := λ v, bool_decide (v = "true");
     IsSnapshot := λ _, false;
     LoadByProjectAndName := λ project _, Ok (mkPublishedInstance "container" project "x86_64");
     exportInstance := λ _ _, Ok (mkBuilt "f1" 17 (1002 * Day) sampleMeta) |}.

(** The image [f1]: a cached row in project [a], uploaded on day 1000 and
    never used, and a row in project [b] that is not cached. *)
Definition cachedInA : Image :=
  {| img_ID := 1; img_Project := "a"; img_Fingerprint := "f1"; img_Filename := "alpine.tar.xz";
     img_Size := 17; img_Public := false; img_AutoUpdate := true; img_Cached := true;
     img_Architecture := "x86_64"; img_CreatedAt := 990 * Day; img_ExpiresAt := 0;
     img_LastUseDate := 0; img_UploadDate := 1000 * Day;
     img_Properties := {["os" := "Alpine"; "release" := "3.19"]};
     img_Type := "container"; img_Profiles := []; img_Aliases := ["alpine"] |}.

Definition localInB : Image :=
  {| img_ID := 2; img_Project := "b"; img_Fingerprint := "f1"; img_Filename := "alpine.tar.xz";
     img_Size := 17; img_Public := false; img_AutoUpdate := false; img_Cached := false;
     img_Architecture := "x86_64"; img_CreatedAt := 990 * Day; img_ExpiresAt := 0;
     img_LastUseDate := 0; img_UploadDate := 1000 * Day;
     img_Properties := ∅;
     img_Type := "container"; img_Profiles := []; img_Aliases := [] |}.

(** A PATCH of [f1] that makes it public and sets one property. *)
Definition patchPublic : PatchRequest :=
  {| pr_fingerprint := Ok "f1";
     pr_EtagCheck := λ _ _ _, None;
     pr_body := Some {| raw_auto_update := None;
                        raw_public := Some (RawBool true);
                        raw_properties := Some (RawProps {["release" := "3.20"]});
                        raw_others_decode := true |} |}.

(** Uploads without a token: a tarball of one byte, and a split image
    whose second part has the given name. *)
Definition noToken : TokenMetadata :=
  {| tm_expires_at := None; tm_properties := None; tm_public := None |}.

Definition tarballUpload (notification : bool) : UploadRequest :=
  {| h_public := ""; h_properties := []; h_profiles := None; h_aliases := None;
     h_fingerprint := ""; h_filename := "alpine.tar.xz";
     u_mediaType := Ok "application/octet-stream";
     u_notification := notification;
     u_parts := [];
     u_post := [Byte.x1f] |}.

Definition splitUpload (second : string) : UploadRequest :=
  {| h_public := ""; h_properties := []; h_profiles := None; h_aliases := None;
     h_fingerprint := ""; h_filename := "";
     u_mediaType := Ok "multipart/form-data";
     u_notification := false;
     u_parts := [mkPart "metadata" "meta.tar.xz" [Byte.xfd];
                 mkPart second "disk.qcow2" [Byte.x51; Byte.x46]];
     u_post := [] |}.

(** An image whose [metadata.yaml] has no properties, and an upload of it
    that sets one with a property header. *)
Definition bare : Env :=
  {| fault := fault quiet;
     GlobalExpiryDays := GlobalExpiryDays quiet;
     nowAt := nowAt quiet;
     ctxDone := ctxDone quiet;
     poolRemote := poolRemote quiet;
     sha256hex := sha256hex quiet;
     getImageMetadata := λ _, Ok (mkImageMetadata "x86_64" 1700000000 0 None, "container");
     IsTrue := IsTrue quiet;
     IsSnapshot := IsSnapshot quiet;
     LoadByProjectAndName := LoadByProjectAndName quiet;
     exportInstance := exportInstance quiet |}.

Definition tarballWithProperty : UploadRequest :=
  {| h_public := ""; h_properties := [[("os", "Alpine")]]; h_profiles := None;
     h_aliases := None; h_fingerprint := ""; h_filename := "alpine.tar.xz";
     u_mediaType := Ok "application/octet-stream";
     u_notification := false;
     u_parts := [];
     u_post := [Byte.x1f] |}.

(** A token whose expiry went through JSON and is a string. *)
Definition relayedToken : TokenMetadata :=
  {| tm_expires_at := Some OtherType; tm_properties := None; tm_public := None |}.

(** A PATCH of [f1] with the body [null]. *)
Definition patchNull : PatchRequest :=
  {| pr_fingerprint := Ok "f1";
     pr_EtagCheck := λ _ _ _, None;
     pr_body := Some nullBody |}.

(** The publishing of the container [c1]. *)
Definition publishContainer (notification : bool) : PublishRequest :=
  {| pub_SourceType := "container"; pub_SourceName := "c1"; pub_Format := "";
     pub_Filename := ""; pub_Public := false; pub_notification := notification |}.

(** Project [a] expires its cached images after [days]; project [b] has no
    setting of its own. *)
Definition store (days : string) : State :=
  {| images := [cachedInA; localInB];
     projects := [mkProject "a" {["images.remote_cache_expiry" := days]}; mkProject "b" ∅];
     profiles := {[("a", "default") := 1; ("b", "default") := 2]};
     holders := [];
     volumes := [("pool0", "f1")];
     files := {[imagePath "f1"; rootfsPath "f1"]};
     events := [] |}.

End Images.

(** * Properties *)

(** ** Cluster admin surface *)

Section ClusterProperties.
Import Cluster.

Lemma voters_cons n rest :
  voters (n :: rest)
  = ((if bool_decide (Role n = RaftVoter) then 1 else 0) + voters rest)%nat.
Proof.
  unfold voters. rewrite filter_cons.
  case_bool_decide; destruct (decide _); try done.
Qed.

(** What one iteration does, by cases on the lookup and on the checks. *)
Lemma checkNode_cases oldNodes i newNode k :
  match checkNode oldNodes i newNode k with
  | inl Panic => oldNodes !! i = None
  | inl Nil => False
  | inl (Error _) => ∃ o, oldNodes !! i = Some o ∧ memberRejected o newNode
  | inr m =>
      (∃ o, oldNodes !! i = Some o ∧ ¬ memberRejected o newNode)
      ∧ m = k + (if bool_decide (Role newNode = RaftVoter) then 1 else 0)
  end.
Proof.
  unfold checkNode, memberRejected.
  destruct (oldNodes !! i) as [o|]; [|done].
  repeat case_bool_decide; simpl; try (eexists; split; [done|]); try tauto;
    (split; [eexists; split; [done|]; try tauto | lia]).
Qed.

(** The loop never indexes out of range when it covers a suffix of a list
    as long as the old one; it stops at the first refused member, and
    otherwise counts the voters. *)
Lemma rangeNewNodes_cases oldNodes rest : ∀ i k,
  length oldNodes = (i + length rest)%nat →
  match rangeNewNodes oldNodes i rest k with
  | inl (Error _) =>
      ∃ j o n, oldNodes !! (i + j)%nat = Some o ∧ rest !! j = Some n
               ∧ memberRejected o n
  | inl _ => False
  | inr m =>
      m = k + Z.of_nat (voters rest)
      ∧ ∀ j o n, oldNodes !! (i + j)%nat = Some o → rest !! j = Some n →
                 ¬ memberRejected o n
  end.
Proof.
  induction rest as [|newNode rest IH]; intros i k Hlen; simpl.
  - split; [unfold voters; simpl; lia|]. intros j o n _ Hn. by destruct j.
  - pose proof (checkNode_cases oldNodes i newNode k) as Hc.
    destruct (checkNode oldNodes i newNode k) as [[|msg|]|m].
    + done.
    + destruct Hc as (o & Ho & Hr). exists 0%nat, o, newNode.
      by rewrite Nat.add_0_r.
    + apply lookup_ge_None in Hc. simpl in Hlen. lia.
    + destruct Hc as [(o & Ho & Hr) ->].
      specialize (IH (S i) (k + (if bool_decide (Role newNode = RaftVoter)
                                 then 1 else 0))).
      simpl in Hlen.
      destruct (rangeNewNodes oldNodes (S i) rest _) as [[|msg|]|m'];
        try (apply IH; lia).
      * destruct IH as (j & o' & n' & Ho' & Hn' & Hr'); [lia|].
        exists (S j), o', n'. by rewrite Nat.add_succ_r.
      * destruct IH as [-> IH]; [lia|]. split.
        { rewrite voters_cons. case_bool_decide; lia. }
        intros [|j] o' n' Ho' Hn'.
        -- rewrite Nat.add_0_r in Ho'. simpl in Hn'. by simplify_eq.
        -- rewrite Nat.add_succ_r in Ho'. by apply (IH j).
Qed.

(** The validation never indexes out of range: on every pair of lists it
    returns nil or an error. *)
Lemma validateNewConfig_no_panic oldNodes newNodes :
  validateNewConfig oldNodes newNodes ≠ Panic.
Proof.
  unfold validateNewConfig.
  destruct (Nat.ltb_spec (length newNodes) (length oldNodes)); [done|].
  destruct (Nat.ltb_spec (length oldNodes) (length newNodes)); [done|].
  pose proof (rangeNewNodes_cases oldNodes newNodes 0 0) as Hloop.
  destruct (rangeNewNodes oldNodes 0 newNodes 0) as [[|msg|]|m]; try done.
  - exfalso. apply Hloop. simpl. lia.
  - repeat case_match; done.
Qed.

(** The configurations that pass: as long as the old one, no member
    refused, a voter, and two voters among more than two members. *)
Lemma validateNewConfig_Nil_iff (oldNodes newNodes : list RaftNode) :
  validateNewConfig oldNodes newNodes = Nil ↔
  length oldNodes = length newNodes
  ∧ (∀ i o n, oldNodes !! i = Some o → newNodes !! i = Some n → ¬ memberRejected o n)
  ∧ (1 ≤ voters newNodes)%nat
  ∧ (2 < length newNodes → 2 ≤ voters newNodes)%nat.
Proof.
  unfold validateNewConfig.
  destruct (Nat.ltb_spec (length newNodes) (length oldNodes)) as [Hrm|Hrm].
  { split; [discriminate|]. lia. }
  destruct (Nat.ltb_spec (length oldNodes) (length newNodes)) as [Hadd|Hadd].
  { split; [discriminate|]. lia. }
  pose proof (rangeNewNodes_cases oldNodes newNodes 0 0) as Hloop.
  destruct (rangeNewNodes oldNodes 0 newNodes 0) as [[|msg|]|m];
    try (exfalso; apply Hloop; simpl; lia).
  - destruct Hloop as (j & o & n & Ho & Hn & Hr); [simpl; lia|].
    split; [discriminate|]. intros (_ & Hall & _). exfalso. by apply (Hall j o n).
  - destruct Hloop as [-> Hall]; [simpl; lia|].
    destruct (Z.ltb_spec (0 + Z.of_nat (voters newNodes)) 2) as [H2|H2];
      destruct (Nat.ltb_spec 2 (length newNodes)) as [H3|H3]; simpl;
      try (split; [discriminate|lia]);
      destruct (Z.ltb_spec (0 + Z.of_nat (voters newNodes)) 1) as [H1|H1];
      try (split; [discriminate|lia]);
      (split; [intros _|done]); (split; [lia|]); (split; [exact Hall|lia]).
Qed.

(** C2 (as amended): [validateNewConfig] returns an error whenever the new
    list is shorter or longer than the old one, a member's id differs from
    the id at the same position of the old list, a member's non-empty name
    is changed to another non-empty name, a spare becomes a voter, the new
    configuration has no voter, or it has more than two members and fewer
    than two voters; in every other case it returns nil. *)
Theorem validateNewConfig_rejects_exactly (oldNodes newNodes : list RaftNode) :
  (rejected oldNodes newNodes → ∃ msg, validateNewConfig oldNodes newNodes = Error msg)
  ∧ (¬ rejected oldNodes newNodes → validateNewConfig oldNodes newNodes = Nil).
Proof.
  split.
  - intros Hrej.
    destruct (validateNewConfig oldNodes newNodes) as [|msg|] eqn:Hrun.
    + exfalso. apply validateNewConfig_Nil_iff in Hrun as (Hlen & Hall & Hone & Htwo).
      destruct Hrej as [?|[?|[(i & o & n & Ho & Hn & Hr)|[?|?]]]]; try lia.
      by apply (Hall i o n).
    + by exists msg.
    + by apply validateNewConfig_no_panic in Hrun.
  - intros Hacc. unfold rejected in Hacc. apply validateNewConfig_Nil_iff.
    assert (¬ (length newNodes < length oldNodes)%nat) by tauto.
    assert (¬ (length oldNodes < length newNodes)%nat) by tauto.
    assert (voters newNodes ≠ 0%nat) by tauto.
    assert (¬ (2 < length newNodes ∧ voters newNodes < 2)%nat) by tauto.
    split; [lia|]. split; [|lia].
    intros i o n Ho Hn Hr. apply Hacc. do 2 right. left. by exists i, o, n.
Qed.

(** Two runs of the theorem: renumbering id 2 to 99 among three voters is
    refused, and moving a stand-by to another address is accepted. *)
Lemma validateNewConfig_rejects_exactly_witness :
  (∃ msg, validateNewConfig
            [mkRaftNode 1 "10.0.0.1:8443" RaftVoter "n1";
             mkRaftNode 2 "10.0.0.2:8443" RaftVoter "n2";
             mkRaftNode 3 "10.0.0.3:8443" RaftVoter "n3"]
            [mkRaftNode 1 "10.0.0.1:8443" RaftVoter "n1";
             mkRaftNode 99 "10.0.0.2:8443" RaftVoter "n2";
             mkRaftNode 3 "10.0.0.3:8443" RaftVoter "n3"] = Error msg)
  ∧ validateNewConfig
      [mkRaftNode 1 "10.0.0.1:8443" RaftVoter "n1";
       mkRaftNode 2 "10.0.0.2:8443" RaftStandBy "n2"]
      [mkRaftNode 1 "10.0.0.1:8443" RaftVoter "n1";
       mkRaftNode 2 "10.0.0.9:8443" RaftStandBy "n2"] = Nil.
Proof.
  split.
  - apply (proj1 (validateNewConfig_rejects_exactly _ _)).
    do 2 right. left. eexists 1%nat, _, _.
    split; [reflexivity|]. split; [reflexivity|]. left. simpl. discriminate.
  - apply (proj2 (validateNewConfig_rejects_exactly _ _)).
    intros [H|[H|[(i & o & n & Ho & Hn & Hr)|[H|H]]]].
    + simpl in H. lia.
    + simpl in H. lia.
    + destruct i as [|[|i]]; simpl in Ho, Hn; try discriminate;
        injection Ho as <-; injection Hn as <-;
        destruct Hr as [Hr|[(_ & _ & Hr)|[Hr _]]]; simpl in Hr;
        try discriminate; by apply Hr.
    + vm_compute in H. discriminate.
    + vm_compute in H. lia.
Defined.

(** C2 (as stated) fails: the old member is named [n1], the edited member
    has no name.  A non-empty name has been changed, yet the validation
    returns nil, because the loop ignores an empty new name. *)
Lemma validateNewConfig_name_dropped_accepted :
  rejected_anyNewName [mkRaftNode 1 "10.0.0.1:8443" RaftVoter "n1"]
                      [mkRaftNode 1 "10.0.0.1:8443" RaftVoter ""]
  ∧ validateNewConfig [mkRaftNode 1 "10.0.0.1:8443" RaftVoter "n1"]
                      [mkRaftNode 1 "10.0.0.1:8443" RaftVoter ""] = Nil.
Proof.
  split; [|reflexivity].
  do 2 right. left. eexists 0%nat, _, _.
  split; [reflexivity|]. split; [reflexivity|].
  right. left. simpl. split; discriminate.
Qed.

(** The validation compares a configuration with itself without complaint
    about its members: only the voter counts can refuse it. *)
Lemma memberRejected_refl n : ¬ memberRejected n n.
Proof.
  intros [H|[(_ & _ & H)|[H1 H2]]]; try done. rewrite H1 in H2. discriminate.
Qed.

(** C9: [validateNewConfig] is total: on every pair of member lists it
    returns nil or an error and never indexes out of range; and it is
    idempotent: a configuration that passed validation against the old one
    passes validation against itself, and applying it a second time leaves
    the raft configuration as the first application made it. *)
Theorem validateNewConfig_total_idempotent (oldNodes newNodes : list RaftNode) :
  validateNewConfig oldNodes newNodes ≠ Panic
  ∧ (validateNewConfig oldNodes newNodes = Nil →
     validateNewConfig newNodes newNodes = Nil
     ∧ edit (edit oldNodes newNodes) newNodes = edit oldNodes newNodes).
Proof.
  split.
  - apply validateNewConfig_no_panic.
  - intros Hnil.
    assert (validateNewConfig newNodes newNodes = Nil) as Hself.
    { apply validateNewConfig_Nil_iff in Hnil as (_ & _ & Hone & Htwo).
      apply validateNewConfig_Nil_iff. split; [done|]. split; [|done].
      intros i o n Ho Hn. rewrite Ho in Hn. injection Hn as <-.
      apply memberRejected_refl. }
    split; [done|]. unfold edit, Reconfigure. by rewrite Hnil, Hself.
Qed.

Lemma validateNewConfig_total_idempotent_witness :
  validateNewConfig
    [mkRaftNode 1 "10.0.0.1:8443" RaftVoter "n1";
     mkRaftNode 2 "10.0.0.9:8443" RaftStandBy ""]
    [mkRaftNode 1 "10.0.0.1:8443" RaftVoter "n1";
     mkRaftNode 2 "10.0.0.9:8443" RaftStandBy ""] = Nil.
Proof.
  apply (proj2 (validateNewConfig_total_idempotent
                  [mkRaftNode 1 "10.0.0.1:8443" RaftVoter "n1";
                   mkRaftNode 2 "10.0.0.2:8443" RaftStandBy "n2"]
                  [mkRaftNode 1 "10.0.0.1:8443" RaftVoter "n1";
                   mkRaftNode 2 "10.0.0.9:8443" RaftStandBy ""])).
  reflexivity.
Defined.

End ClusterProperties.

(** ** Migration source and sink *)

Section MigrationProperties.
Import Migration.

Variable env : Env.

(** The connections made by the loops are keyed by the names given. *)
Lemma sourceConns_dom cert opURL secrets names : ∀ k conns conns',
  sourceConns env cert opURL secrets names k conns = Ok conns' →
  dom conns' = dom conns ∪ list_to_set names.
Proof.
  induction names as [|connName rest IH]; intros k conns conns'; simpl.
  - intros Heq. injection Heq as <-. set_solver.
  - destruct (negb (bool_decide (opURL = ""))).
    + destruct (bool_decide (getString secrets connName = "")); [discriminate|].
      destruct (setupWebsocketDialer env cert) as [dialer|]; [|discriminate].
      destruct (url_Parse env _) as [u|]; [|discriminate].
      intros Hrest. apply IH in Hrest. rewrite Hrest, dom_insert_L. set_solver.
    + destruct (RandomHexString env k) as [secret|]; [|discriminate].
      intros Hrest. apply IH in Hrest. rewrite Hrest, dom_insert_L. set_solver.
Qed.

Lemma sinkConns_dom args names : ∀ k conns conns',
  sinkConns env args names k conns = Ok conns' →
  dom conns' = dom conns ∪ list_to_set names.
Proof.
  induction names as [|connName rest IH]; intros k conns conns'; simpl.
  - intros Heq. injection Heq as <-. set_solver.
  - destruct (negb (a_Push args)).
    + destruct (bool_decide (getString (a_Secrets args) connName = "")); [discriminate|].
      destruct (url_Parse env _) as [u|]; [|discriminate].
      intros Hrest. apply IH in Hrest. rewrite Hrest, dom_insert_L. set_solver.
    + destruct (RandomHexString env k) as [secret|]; [|discriminate].
      intros Hrest. apply IH in Hrest. rewrite Hrest, dom_insert_L. set_solver.
Qed.

(** The loops fail with errors of their own making, never with a
    package-level error value. *)
Lemma sourceConns_error cert opURL secrets names : ∀ k conns e name,
  sourceConns env cert opURL secrets names k conns = Err e → e ≠ Sentinel name.
Proof.
  induction names as [|connName rest IH]; intros k conns e name; simpl; [discriminate|].
  destruct (negb (bool_decide (opURL = ""))).
  - destruct (bool_decide (getString secrets connName = "")); [by intros [= <-]|].
    destruct (setupWebsocketDialer env cert) as [dialer|]; [|by intros [= <-]].
    destruct (url_Parse env _) as [u|]; [|by intros [= <-]]. apply IH.
  - destruct (RandomHexString env k) as [secret|]; [|by intros [= <-]]. apply IH.
Qed.

Lemma sinkConns_error args names : ∀ k conns e name,
  sinkConns env args names k conns = Err e → e ≠ Sentinel name.
Proof.
  induction names as [|connName rest IH]; intros k conns e name; simpl; [discriminate|].
  destruct (negb (a_Push args)).
  - destruct (bool_decide (getString (a_Secrets args) connName = "")); [by intros [= <-]|].
    destruct (url_Parse env _) as [u|]; [|by intros [= <-]]. apply IH.
  - destruct (RandomHexString env k) as [secret|]; [|by intros [= <-]]. apply IH.
Qed.

(** C5: a live migration of a container needs [criu] on the local system:
    without it [newMigrationSource] fails with the no-live-migration-source
    error and [newMigrationSink] with the no-live-migration-target error;
    and a session that was created has exactly the channels control and
    filesystem, and the state channel exactly when it is live.  The two
    errors have no other cause. *)
Theorem live_migration_needs_criu_and_state_channel
        (inst : Instance) (stateful instanceOnly allowInconsistent : bool)
        (clusterMoveSourceName storagePool : string)
        (pushTarget : option InstancePostTarget) (args : migrationSinkArgs) :
  (stateful && inst_IsRunning inst = true → inst_Type inst = Container →
   LookPath env "criu" = false →
   newMigrationSource env inst stateful instanceOnly allowInconsistent
     clusterMoveSourceName storagePool pushTarget = Err ErrNoLiveMigrationSource)
  ∧ (a_Live args = true → inst_Type (a_Instance args) = Container →
     LookPath env "criu" = false →
     newMigrationSink env args = Err ErrNoLiveMigrationTarget)
  ∧ (∀ s, newMigrationSource env inst stateful instanceOnly allowInconsistent
            clusterMoveSourceName storagePool pushTarget = Ok s →
          s_live s = stateful && inst_IsRunning inst
          ∧ dom (s_conns s) = channels (s_live s))
  ∧ (∀ c, newMigrationSink env args = Ok c →
          c_live c = a_Live args
          ∧ dom (c_conns c) = channels (c_live c))
  ∧ (newMigrationSource env inst stateful instanceOnly allowInconsistent
       clusterMoveSourceName storagePool pushTarget = Err ErrNoLiveMigrationSource →
     stateful && inst_IsRunning inst = true ∧ inst_Type inst = Container
     ∧ LookPath env "criu" = false)
  ∧ (newMigrationSink env args = Err ErrNoLiveMigrationTarget →
     a_Live args = true ∧ inst_Type (a_Instance args) = Container
     ∧ LookPath env "criu" = false).
Proof.
  unfold newMigrationSource, newMigrationSink, channels.
  split; [|split; [|split; [|split; [|split]]]].
  - intros -> -> ->. reflexivity.
  - intros -> -> ->. reflexivity.
  - intros s.
    destruct (stateful && inst_IsRunning inst);
      [destruct (bool_decide (inst_Type inst = Container) && negb (LookPath env "criu"));
       [discriminate|] |]; cbn [mbind result_bind];
      match goal with
      | |- context [sourceConns ?e ?a ?b ?c ?n ?k ?m] =>
          destruct (sourceConns e a b c n k m) as [conns|err] eqn:Hconns
      end; try discriminate;
      intros [= <-]; cbn [s_live s_conns]; (split; [done|]);
      apply sourceConns_dom in Hconns; rewrite Hconns; set_solver.
  - intros c.
    destruct (a_Live args);
      [destruct (bool_decide (inst_Type (a_Instance args) = Container)
                 && negb (LookPath env "criu")); [discriminate|] |];
      cbn [mbind result_bind];
      match goal with
      | |- context [sinkConns ?e ?a ?n ?k ?m] =>
          destruct (sinkConns e a n k m) as [conns|err] eqn:Hconns
      end; try discriminate;
      intros [= <-]; cbn [c_live c_conns]; (split; [done|]);
      apply sinkConns_dom in Hconns; rewrite Hconns; set_solver.
  - destruct (stateful && inst_IsRunning inst).
    + destruct (bool_decide (inst_Type inst = Container) && negb (LookPath env "criu"))
        eqn:Hcheck.
      * intros _. apply andb_true_iff in Hcheck as [Htype Hcriu].
        apply bool_decide_eq_true in Htype. apply negb_true_iff in Hcriu. done.
      * cbn [mbind result_bind];
          match goal with
          | |- context [sourceConns ?e ?a ?b ?c ?n ?k ?m] =>
              destruct (sourceConns e a b c n k m) as [conns|err] eqn:Hconns
          end; try discriminate;
          intros [= ->]; exfalso;
          eapply sourceConns_error; [exact Hconns | reflexivity].
    + cbn [mbind result_bind];
        match goal with
        | |- context [sourceConns ?e ?a ?b ?c ?n ?k ?m] =>
            destruct (sourceConns e a b c n k m) as [conns|err] eqn:Hconns
        end; try discriminate;
        intros [= ->]; exfalso;
          eapply sourceConns_error; [exact Hconns | reflexivity].
  - destruct (a_Live args).
    + destruct (bool_decide (inst_Type (a_Instance args) = Container)
                && negb (LookPath env "criu")) eqn:Hcheck.
      * intros _. apply andb_true_iff in Hcheck as [Htype Hcriu].
        apply bool_decide_eq_true in Htype. apply negb_true_iff in Hcriu. done.
      * cbn [mbind result_bind];
          match goal with
          | |- context [sinkConns ?e ?a ?n ?k ?m] =>
              destruct (sinkConns e a n k m) as [conns|err] eqn:Hconns
          end; try discriminate;
          intros [= ->]; exfalso;
          eapply sinkConns_error; [exact Hconns | reflexivity].
    + cbn [mbind result_bind];
        match goal with
        | |- context [sinkConns ?e ?a ?n ?k ?m] =>
            destruct (sinkConns e a n k m) as [conns|err] eqn:Hconns
        end; try discriminate;
        intros [= ->]; exfalso;
          eapply sinkConns_error; [exact Hconns | reflexivity].
Qed.

(** C6: on both ends [do] waits for the control connection under a
    30-second deadline; when that wait fails the session ends with the
    error [Failed waiting for migration control connection on source]
    (on the sink: [on target]) and neither [MigrateSend] nor
    [MigrateReceive] has been called; when the connection is there in time
    the transfer is started. *)
Theorem control_connection_deadline (s : migrationSourceWs) (c : migrationSink) :
  (∃ rest, (source_do env s).2
           = Debug "Waiting for migration control connection on source"
             :: WaitControl (s_conns s !! SecretNameControl) 30000000000 :: rest)
  ∧ (∃ rest, (sink_do env c).2
             = Debug "Waiting for migration control connection on target"
               :: WaitControl (c_conns c !! SecretNameControl) 30000000000 :: rest)
  ∧ (∀ err, WebSocket env (s_conns s !! SecretNameControl) 30000000000 = Some err →
            (source_do env s).1
            = Some (Wrap "Failed waiting for migration control connection on source" err)
            ∧ Forall (λ e, isTransfer e = false) (source_do env s).2)
  ∧ (∀ err, WebSocket env (c_conns c !! SecretNameControl) 30000000000 = Some err →
            (sink_do env c).1
            = Some (Wrap "Failed waiting for migration control connection on target" err)
            ∧ Forall (λ e, isTransfer e = false) (sink_do env c).2)
  ∧ (WebSocket env (s_conns s !! SecretNameControl) 30000000000 = None →
     Exists (λ e, isTransfer e = true) (source_do env s).2)
  ∧ (WebSocket env (c_conns c !! SecretNameControl) 30000000000 = None →
     Exists (λ e, isTransfer e = true) (sink_do env c).2).
Proof.
  unfold source_do, sink_do. change (Second * 30) with 30000000000.
  split; [|split; [|split; [|split; [|split]]]].
  - repeat case_match; simpl; eauto.
  - repeat case_match; simpl; eauto.
  - intros err ->. simpl. split; [done|]. repeat constructor.
  - intros err ->. simpl. split; [done|]. repeat constructor.
  - intros ->. destruct (MigrateSend env _ _); simpl;
      do 4 apply Exists_cons_tl; by apply Exists_cons_hd.
  - intros ->. destruct (MigrateReceive env _ _ _); simpl;
      do 3 apply Exists_cons_tl; by apply Exists_cons_hd.
Qed.

End MigrationProperties.

(** The theorem at work: a stateful move of a running container fails on a
    host without [criu], on the source and on the sink; with [criu] the
    source session has the three channels, and a sink that is not live has
    two. *)
Lemma live_migration_needs_criu_and_state_channel_witness :
  Migration.newMigrationSource Migration.hostWithoutCriu Migration.runningContainer
    true false false "" "" None = Err Migration.ErrNoLiveMigrationSource
  ∧ Migration.newMigrationSink Migration.hostWithoutCriu (Migration.pullSinkArgs true)
    = Err Migration.ErrNoLiveMigrationTarget
  ∧ (∃ s, Migration.newMigrationSource Migration.hostWithCriu Migration.runningContainer
            true false false "" "" None = Ok s
          ∧ dom (Migration.s_conns s) = Migration.channels true)
  ∧ (∃ c, Migration.newMigrationSink Migration.hostWithCriu (Migration.pullSinkArgs false)
          = Ok c
          ∧ dom (Migration.c_conns c) = Migration.channels false).
Proof.
  split; [|split; [|split]].
  - apply (live_migration_needs_criu_and_state_channel Migration.hostWithoutCriu
             Migration.runningContainer true false false "" "" None
             (Migration.pullSinkArgs true)); reflexivity.
  - apply (live_migration_needs_criu_and_state_channel Migration.hostWithoutCriu
             Migration.runningContainer true false false "" "" None
             (Migration.pullSinkArgs true)); reflexivity.
  - eexists. split; [reflexivity|].
    apply (live_migration_needs_criu_and_state_channel Migration.hostWithCriu
             Migration.runningContainer true false false "" "" None
             (Migration.pullSinkArgs false)). reflexivity.
  - eexists. split; [reflexivity|].
    apply (live_migration_needs_criu_and_state_channel Migration.hostWithCriu
             Migration.runningContainer true false false "" "" None
             (Migration.pullSinkArgs false)). reflexivity.
Defined.

(** The theorem at work: the target never connects, and both ends give up
    with their error before any transfer. *)
Lemma control_connection_deadline_witness :
  ((Migration.source_do Migration.hostWithCriu Migration.pullSource).1
   = Some (Wrap "Failed waiting for migration control connection on source"
                Migration.deadlineExceeded)
   ∧ Forall (λ e, Migration.isTransfer e = false)
            (Migration.source_do Migration.hostWithCriu Migration.pullSource).2)
  ∧ ((Migration.sink_do Migration.hostWithCriu Migration.pushSink).1
     = Some (Wrap "Failed waiting for migration control connection on target"
                  Migration.deadlineExceeded)
     ∧ Forall (λ e, Migration.isTransfer e = false)
              (Migration.sink_do Migration.hostWithCriu Migration.pushSink).2).
Proof.
  split.
  - apply (control_connection_deadline Migration.hostWithCriu
             Migration.pullSource Migration.pushSink). reflexivity.
  - apply (control_connection_deadline Migration.hostWithCriu
             Migration.pullSource Migration.pushSink). reflexivity.
Defined.

(** ** Image tokens *)

Section TokenProperties.
Import Operations.

Context {S : Type} (sub : Subsystem S).






End TokenProperties.



(** The project of the search is the one of the call: with the
    operations in flight as the state, a running token of the default
    project is not found by a call for the project [p1]. *)
Lemma imageValidSecret_lists_project_of_call :
  Operations.imageValidSecret Operations.inFlight
    [Operations.mkOperation "7a01" "default" Operations.ImageToken Operations.Running
       (Some {["images" := ["/1.0/images/abcdef"]]})
       {["secret" := Operations.MetaString "s3cr3t"]}]
    "p1" "abcdef" "s3cr3t"
  = (Ok None,
     [Operations.mkOperation "7a01" "default" Operations.ImageToken Operations.Running
        (Some {["images" := ["/1.0/images/abcdef"]]})
        {["secret" := Operations.MetaString "s3cr3t"]}]).
Proof. reflexivity. Qed.

(** ** Image store *)

Section ImageProperties.
Import Images.

Variable env : Env.

(** *** Deleting an image *)

Lemma GetImage_elem st fingerprint projectName info :
  GetImage env st fingerprint projectName = Ok info →
  info ∈ images st ∧ img_Project info = projectName.
Proof.
  unfold GetImage. destruct (fault env TxGetImage); [discriminate|].
  destruct (filter _ (images st)) as [|i [|i' l]] eqn:Hf; try discriminate.
  intros Heq. injection Heq as ->.
  assert (info ∈ filter (λ i, img_Project i = projectName
            ∧ HasPrefix (img_Fingerprint i) fingerprint = true) (images st)) as Hin
    by (rewrite Hf; left).
  apply list_elem_of_filter in Hin as [[Hp _] Hin]. done.
Qed.

(** The row with a given id, in a table whose ids are unique. *)
Lemma row_by_id (l : list Image) (info : Image) :
  NoDup (img_ID <$> l) → info ∈ l →
  filter (λ i, img_ID i = img_ID info) l = [info].
Proof.
  induction l as [|a l IH]; intros Hnd Hin; [by apply elem_of_nil in Hin|].
  rewrite fmap_cons in Hnd. apply NoDup_cons in Hnd as [Hnotin Hnd].
  assert (∀ i, i ∈ l → img_ID i ≠ img_ID a) as Hfresh.
  { intros i Hi Heq. apply Hnotin. rewrite <- Heq.
    apply list_elem_of_fmap. by exists i. }
  apply elem_of_cons in Hin as [->|Hin].
  - rewrite filter_cons_True by done. f_equal.
    clear IH Hnotin Hnd. induction l as [|b l IHl]; [done|].
    rewrite filter_cons_False; [apply IHl|apply Hfresh; left].
    intros i Hi. apply Hfresh. by right.
  - rewrite filter_cons_False; [by apply IH|].
    intros Heq. by apply (Hfresh info Hin).
Qed.


(** C8: when the image that a DELETE resolves to is also held by a record
    of another project, and the request is not a cluster notification, the
    run removes at most the row of the requesting project and stops: the
    files under [images/], the image volumes and the events (so also the
    notifications to the peers) are as before; and when no call fails the
    row is removed and no other row is. *)
Theorem imageDelete_keeps_shared_blob
        (projectName fingerprint : string) (imgInfo : Image) (st : State) :
  GetImage env st fingerprint projectName = Ok imgInfo →
  ImageIsReferencedByOtherProjects st projectName (img_Fingerprint imgInfo) = true →
  ∃ err st',
    imageDelete env false projectName fingerprint st = (OperationDone err, st')
    ∧ files st' = files st
    ∧ volumes st' = volumes st
    ∧ holders st' = holders st
    ∧ events st' = events st
    ∧ (images st' = images st
       ∨ images st' = filter (λ i, img_ID i ≠ img_ID imgInfo) (images st))
    ∧ (fault env (ImageOperationLock (img_Fingerprint imgInfo)) = None →
       fault env TxImageExists = None → fault env TxReferenced = None →
       fault env (TxDeleteImage (img_ID imgInfo)) = None →
       err = None
       ∧ images st' = filter (λ i, img_ID i ≠ img_ID imgInfo) (images st)
       ∧ (NoDup (img_ID <$> images st) →
          ∀ i, i ∈ images st' ↔ i ∈ images st ∧ i ≠ imgInfo)).
Proof.
  intros Hget Href. unfold imageDelete. rewrite Hget.
  destruct (GetImage_elem _ _ _ _ Hget) as [Hin Hproject].
  assert (ImageExists st projectName (img_Fingerprint imgInfo) = true) as Hex.
  { unfold ImageExists. apply bool_decide_eq_true, Exists_exists. by exists imgInfo. }
  unfold imageDelete_do. rewrite Hex, Href. simpl.
  destruct (fault env (ImageOperationLock _)) as [e|] eqn:Hlock.
  { do 2 eexists. split; [done|]. repeat (split; [done|]). split; [by left|done]. }
  destruct (fault env TxImageExists) as [e|] eqn:Hexists.
  { do 2 eexists. split; [done|]. repeat (split; [done|]). split; [by left|done]. }
  destruct (fault env TxReferenced) as [e|] eqn:Hreferenced.
  { do 2 eexists. split; [done|]. repeat (split; [done|]). split; [by left|done]. }
  destruct (fault env (TxDeleteImage _)) as [e|] eqn:Hdelete.
  { do 2 eexists. split; [done|]. repeat (split; [done|]). split; [by left|done]. }
  do 2 eexists. split; [done|]. repeat (split; [done|]). split; [by right|].
  intros _ _ _ _. split; [done|]. split; [done|].
  intros Hnd i. cbn [images DeleteImage setImages]. rewrite list_elem_of_filter.
  split.
  - intros [Hid Hi]. split; [done|]. by intros ->.
  - intros [Hi Hne]. split; [|done]. intros Hid. apply Hne.
    assert (i ∈ filter (λ x, img_ID x = img_ID imgInfo) (images st)) as Hrow
      by (by apply list_elem_of_filter).
    rewrite (row_by_id _ _ Hnd Hin) in Hrow. by apply list_elem_of_singleton in Hrow.
Qed.

(** *** Patching an image *)

Lemma filter_id_fmap (g : Image → Image) (id : Z) (l : list Image) :
  (∀ i, img_ID (g i) = img_ID i) →
  filter (λ i, img_ID i = id) (g <$> l) = g <$> filter (λ i, img_ID i = id) l.
Proof.
  intros Hg. induction l as [|a l IH]; [done|].
  rewrite fmap_cons. destruct (decide (img_ID a = id)) as [Ha|Ha].
  - rewrite !filter_cons_True by (by rewrite ?Hg). by rewrite fmap_cons, IH.
  - rewrite !filter_cons_False by (by rewrite ?Hg). done.
Qed.

(** The row that [UpdateImage] writes. *)
Lemma UpdateImage_row st info fname sz public autoUpdate architecture createdAt expiresAt
      properties project profileIds :
  NoDup (img_ID <$> images st) → info ∈ images st →
  ∃ info',
    filter (λ i, img_ID i = img_ID info)
           (images (UpdateImage st (img_ID info) fname sz public autoUpdate architecture
                                createdAt expiresAt properties project profileIds))
    = [info']
    ∧ img_Filename info' = fname ∧ img_Size info' = sz
    ∧ img_Public info' = public ∧ img_AutoUpdate info' = autoUpdate
    ∧ img_Architecture info' = architecture ∧ img_CreatedAt info' = createdAt
    ∧ img_ExpiresAt info' = expiresAt ∧ img_Properties info' = properties.
Proof.
  intros Hnd Hin. unfold UpdateImage. cbn [images setImages].
  rewrite filter_id_fmap by (intros i; case_bool_decide; done).
  rewrite (row_by_id _ _ Hnd Hin). cbn [fmap list_fmap].
  rewrite bool_decide_eq_true_2 by done.
  eexists. split; [done|]. cbn. repeat split.
Qed.

(** The runs of a PATCH that end before the row is written. *)
Ltac row_unchanged st info Hrow :=
  eexists _, st, info;
  split; [reflexivity|]; split; [exact Hrow|];
  split; [intros Hne; by destruct Hne|]; split; [intros Hne; by destruct Hne|];
  split; [done|]; repeat (split; [done|]); discriminate.

(** C10: a PATCH that finds its image and passes the ETag check changes
    the stored [auto_update] and [public] flags only if the body has the
    key; with a properties map in the body, stored keys that the map lacks
    keep their values; and file name, size, architecture, creation and
    expiry dates of the row stay as they were.  When the PATCH succeeds the
    flags and properties given in the body are the stored ones. *)
Theorem imagePatch_merges_and_frames
        (projectName fingerprint : string) (r : PatchRequest) (info : Image) (st : State) :
  NoDup (img_ID <$> images st) →
  pr_fingerprint r = Ok fingerprint →
  GetImage env st fingerprint projectName = Ok info →
  pr_EtagCheck r (img_Public info) (img_AutoUpdate info) (img_Properties info) = None →
  ∃ resp st' info',
    imagePatch env projectName r st = (resp, st')
    ∧ filter (λ i, img_ID i = img_ID info) (images st') = [info']
    ∧ (img_AutoUpdate info' ≠ img_AutoUpdate info →
       ∃ body, pr_body r = Some body ∧ is_Some (raw_auto_update body))
    ∧ (img_Public info' ≠ img_Public info →
       ∃ body, pr_body r = Some body ∧ is_Some (raw_public body))
    ∧ (∀ body m k, pr_body r = Some body → raw_properties body = Some (RawProps m) →
                   m !! k = None → img_Properties info' !! k = img_Properties info !! k)
    ∧ img_Filename info' = img_Filename info
    ∧ img_Size info' = img_Size info
    ∧ img_Architecture info' = img_Architecture info
    ∧ img_CreatedAt info' = img_CreatedAt info
    ∧ img_ExpiresAt info' = img_ExpiresAt info
    ∧ (resp = EmptySyncResponse →
       ∃ body, pr_body r = Some body
         ∧ (∀ b, raw_auto_update body = Some (RawBool b) → img_AutoUpdate info' = b)
         ∧ (∀ b, raw_public body = Some (RawBool b) → img_Public info' = b)
         ∧ (∀ m k v, raw_properties body = Some (RawProps m) → m !! k = Some v →
                     img_Properties info' !! k = Some v)).
Proof.
  intros Hnd Hfp Hget Hetag.
  destruct (GetImage_elem _ _ _ _ Hget) as [Hin _].
  pose proof (row_by_id _ _ Hnd Hin) as Hrow.
  unfold imagePatch. rewrite Hfp, Hget, Hetag.
  destruct (fault env ReadBody) as [e|]; [row_unchanged st info Hrow|].
  destruct (pr_body r) as [body|] eqn:Hbody; [|row_unchanged st info Hrow].
  destruct (decodesToImagePut body); [|row_unchanged st info Hrow].
  cbn [negb].
  destruct (patchProperties (raw_properties body) (img_Properties info))
    as [properties|] eqn:Hprops; [|row_unchanged st info Hrow].
  destruct (fault env (TxUpdateImage (img_ID info))) as [e|];
    [row_unchanged st info Hrow|].
  match goal with
  | |- context [UpdateImage st ?id ?fn ?sz ?pb ?au ?ar ?cr ?ex ?pr ?pj ?pid] =>
      destruct (UpdateImage_row st info fn sz pb au ar cr ex pr pj pid Hnd Hin)
        as (info' & Hrow' & Hfn & Hsz & Hpb & Hau & Har & Hcr & Hex & Hpr)
  end.
  eexists _, _, info'. split; [done|]. split; [exact Hrow'|].
  rewrite Hfn, Hsz, Hpb, Hau, Har, Hcr, Hex, Hpr.
  split.
  { intros Hne. exists body. split; [done|].
    destruct (raw_auto_update body) as [v|]; [by eexists|]. by destruct Hne. }
  split.
  { intros Hne. exists body. split; [done|].
    destruct (raw_public body) as [v|]; [by eexists|]. by destruct Hne. }
  split.
  { intros body' m k Hb Hm Hk. injection Hb as <-. rewrite Hm in Hprops.
    injection Hprops as <-. rewrite lookup_union_r; done. }
  repeat (split; [done|]). intros _. exists body. split; [done|].
  split; [by intros b ->|]. split; [by intros b ->|].
  intros m k v Hm Hk. rewrite Hm in Hprops. injection Hprops as <-.
  by apply lookup_union_Some_l.
Qed.

(** *** Ingestion *)

(** A multipart body whose first part is not [metadata] is refused before
    anything is written. *)
Lemma receiveMultipart_first_part r st part1 rest :
  u_parts r = part1 :: rest → FormName part1 ≠ "metadata" →
  ∃ e, receiveMultipart env r st = (Err e, st)
       ∧ (fault env (CreateTemp 1) = None → fault env Seek = None →
          e = ErrInvalidMultipart).
Proof.
  intros Hparts Hname. unfold receiveMultipart. rewrite Hparts.
  destruct (fault env (CreateTemp 1)) as [e|]; [by exists e|].
  destruct (fault env Seek) as [e|]; [by exists e|].
  rewrite bool_decide_eq_false_2 by done. by eexists.
Qed.

(** So is one whose second part is neither [rootfs] nor [rootfs.img]. *)
Lemma receiveMultipart_second_part r st part1 part2 rest :
  u_parts r = part1 :: part2 :: rest →
  FormName part2 ≠ "rootfs" → FormName part2 ≠ "rootfs.img" →
  ∃ e, receiveMultipart env r st = (Err e, st)
       ∧ (FormName part1 = "metadata" → fault env (CreateTemp 1) = None →
          fault env Seek = None → fault env (CopyPart 1) = None →
          e = ErrInvalidMultipart).
Proof.
  intros Hparts Hn1 Hn2. unfold receiveMultipart. rewrite Hparts.
  destruct (fault env (CreateTemp 1)) as [e|]; [by exists e|].
  destruct (fault env Seek) as [e|]; [by exists e|].
  case_bool_decide; [|by eexists]. cbn [negb].
  destruct (fault env (CopyPart 1)) as [e|]; [by exists e|].
  rewrite !bool_decide_eq_false_2 by done. by eexists.
Qed.

(** What a multipart body that was received looked like, and what the
    reception wrote: files only. *)
Lemma receiveMultipart_ok r st rc st' :
  receiveMultipart env r st = (Ok rc, st') →
  (∃ part1 part2 rest,
      u_parts r = part1 :: part2 :: rest ∧ FormName part1 = "metadata"
      ∧ (FormName part2 = "rootfs" ∧ rc_Type rc = ContainerString
         ∨ FormName part2 = "rootfs.img" ∧ rc_Type rc = VMString)
      ∧ rc_Fingerprint rc = sha256hex env (partData part1 ++ partData part2)%list)
  ∧ images st' = images st ∧ holders st' = holders st ∧ profiles st' = profiles st.
Proof.
  unfold receiveMultipart. intros Hrun.
  repeat case_match; simplify_eq.
  all: repeat match goal with
         | H : negb (bool_decide _) = false |- _ =>
             apply negb_false_iff, bool_decide_eq_true in H
         | H : bool_decide _ = true |- _ => apply bool_decide_eq_true in H
         end.
  all: split; [|done].
  all: eexists _, _, _; split; [done|]; split; [done|]; split; [|done].
  all: first [left; split; done | right; split; done].
Qed.

(** A tarball is received like a multipart body: files only. *)
Lemma receiveTarball_frame r st res st' :
  receiveTarball env r st = (res, st') →
  images st' = images st ∧ holders st' = holders st ∧ profiles st' = profiles st
  ∧ projects st' = projects st ∧ volumes st' = volumes st ∧ events st' = events st
  ∧ files st ⊆ files st'.
Proof.
  unfold receiveTarball. intros Hrun.
  repeat case_match; simplify_eq; cbn; split_and!; try done; set_solver.
Qed.

Lemma receiveMultipart_frame r st res st' :
  receiveMultipart env r st = (res, st') →
  images st' = images st ∧ holders st' = holders st ∧ profiles st' = profiles st
  ∧ projects st' = projects st ∧ volumes st' = volumes st ∧ events st' = events st
  ∧ files st ⊆ files st'.
Proof.
  unfold receiveMultipart. intros Hrun.
  repeat case_match; simplify_eq; cbn; split_and!; try done; set_solver.
Qed.

(** The runs of [getImgPostInfo] that return an image: the reception went
    through, and the run ended in one of the three branches on [exists]. *)
Lemma getImgPostInfo_returns r project metadata st i err st' :
  getImgPostInfo env r project metadata st = Returns (Some i) err st' →
  ∃ rc stm,
    (if bool_decide (match u_mediaType r with
                     | Ok ctype => ctype
                     | Err _ => "application/octet-stream"
                     end = "multipart/form-data")
     then receiveMultipart env r st else receiveTarball env r st) = (Ok rc, stm)
    ∧ Fingerprint i = rc_Fingerprint rc ∧ Type_ i = rc_Type rc
    ∧ (ImageExists stm project (rc_Fingerprint rc) = true
       ∧ u_notification r = false
       ∧ err = Some (errors_New "Image with same fingerprint already exists")
       ∧ st' = stm
       ∨ ImageExists stm project (rc_Fingerprint rc) = true
         ∧ u_notification r = true ∧ err = None
         ∧ st' = AddImageToLocalNode stm project (rc_Fingerprint rc)
       ∨ ImageExists stm project (rc_Fingerprint rc) = false ∧ err = None
         ∧ ∃ new, images st' = (images stm ++ [new])%list ∧ holders st' = holders stm
                  ∧ img_Project new = project
                  ∧ img_Fingerprint new = rc_Fingerprint rc).
Proof.
  unfold getImgPostInfo. intros Hrun.
  destruct (if bool_decide _ then receiveMultipart env r st else receiveTarball env r st)
    as [[rc|e] stm] eqn:Hrecv; [|discriminate].
  exists rc, stm. split; [done|].
  destruct (match tm_expires_at metadata with Some _ => _ | None => _ end)
    as [expiresAt|]; [|discriminate].
  destruct (match tm_properties metadata with Some _ => _ | None => _ end)
    as [properties0|]; [|discriminate].
  destruct (setProperties properties0 (h_properties r)) as [properties|]; [|discriminate].
  destruct (profileIDs env stm project _) as [profileIds|]; [|discriminate].
  destruct (fault env TxImageExists); [discriminate|].
  destruct (ImageExists stm project (rc_Fingerprint rc)) eqn:Hex.
  - destruct (u_notification r) eqn:Hnote.
    + destruct (fault env TxAddImageToLocalNode); [discriminate|].
      injection Hrun as <- <- <-. cbn. split; [done|]. split; [done|].
      right. left. done.
    + injection Hrun as <- <- <-. cbn. split; [done|]. split; [done|].
      left. done.
  - destruct (match tm_public metadata with Some _ => _ | None => _ end)
      as [public|]; [|discriminate].
    destruct (fault env TxCreateImage); [discriminate|].
    injection Hrun as <- <- <-. cbn. split; [done|]. split; [done|].
    right. right. split; [done|]. split; [done|]. eexists. split; [done|]. done.
Qed.

(** C7: in a multipart upload the first part has to be [metadata] and the
    second [rootfs] or [rootfs.img]: with any other name the upload is
    refused, with the error [Invalid multipart image] unless the file system
    failed earlier, and the state is as before, so no record is created;
    an image that is returned has the type [container] for [rootfs] and
    [virtual-machine] for [rootfs.img], and its fingerprint is the SHA-256
    of the bytes of the metadata part followed by those of the rootfs part. *)
Theorem multipart_upload_parts
        (r : UploadRequest) (project : string) (metadata : TokenMetadata) (st : State) :
  u_mediaType r = Ok "multipart/form-data" →
  (∀ part1 rest,
      u_parts r = part1 :: rest → FormName part1 ≠ "metadata" →
      ∃ err,
        getImgPostInfo env r project metadata st = Returns None (Some err) st
        ∧ (fault env (CreateTemp 1) = None → fault env Seek = None →
           err = ErrInvalidMultipart))
  ∧ (∀ part1 part2 rest,
        u_parts r = part1 :: part2 :: rest →
        FormName part2 ≠ "rootfs" → FormName part2 ≠ "rootfs.img" →
        ∃ err,
          getImgPostInfo env r project metadata st = Returns None (Some err) st
          ∧ (FormName part1 = "metadata" → fault env (CreateTemp 1) = None →
             fault env Seek = None → fault env (CopyPart 1) = None →
             err = ErrInvalidMultipart))
  ∧ (∀ i err st',
        getImgPostInfo env r project metadata st = Returns (Some i) err st' →
        ∃ part1 part2 rest,
          u_parts r = part1 :: part2 :: rest ∧ FormName part1 = "metadata"
          ∧ (FormName part2 = "rootfs" ∧ Type_ i = "container"
             ∨ FormName part2 = "rootfs.img" ∧ Type_ i = "virtual-machine")
          ∧ Fingerprint i = sha256hex env (partData part1 ++ partData part2)%list).
Proof.
  intros Hctype. split; [|split].
  - intros part1 rest Hparts Hname.
    destruct (receiveMultipart_first_part r st part1 rest Hparts Hname) as (e & He & Hwhy).
    exists e. split; [|done].
    unfold getImgPostInfo. rewrite Hctype.
    by rewrite bool_decide_eq_true_2, He.
  - intros part1 part2 rest Hparts Hn1 Hn2.
    destruct (receiveMultipart_second_part r st part1 part2 rest Hparts Hn1 Hn2)
      as (e & He & Hwhy).
    exists e. split; [|done].
    unfold getImgPostInfo. rewrite Hctype.
    by rewrite bool_decide_eq_true_2, He.
  - intros i err st' Hrun.
    destruct (getImgPostInfo_returns _ _ _ _ _ _ _ Hrun)
      as (rc & stm & Hrecv & Hfp & Hty & _).
    rewrite Hctype, bool_decide_eq_true_2 in Hrecv by done.
    destruct (receiveMultipart_ok _ _ _ _ Hrecv)
      as ((part1 & part2 & rest & Hparts & Hn1 & Hn2 & Hsum) & _).
    exists part1, part2, rest. rewrite Hfp, Hty. done.
Qed.

Lemma ImageExists_images st1 st2 project fingerprint :
  images st1 = images st2 →
  ImageExists st1 project fingerprint = ImageExists st2 project fingerprint.
Proof. unfold ImageExists. by intros ->. Qed.

(** C4 (as amended): an upload whose fingerprint already has a record in
    the project creates no record; a normal request fails with the
    already-exists error, and a request marked as a cluster notification
    calls [AddImageToLocalNode] instead, which registers this member as a
    holder of the image, without a new record and without touching the
    global state: the images, the projects, the profiles, the volumes of
    the pools and the events are as before, for both kinds of request, and
    what is written is the list of holders, by the notification, and the
    files of the upload in the image directory of this member.  An instance
    publish whose fingerprint already has a record in the project fails with
    its already-exists error and changes nothing, marked or not. *)
Theorem existing_fingerprint_is_not_recreated
        (r : UploadRequest) (req : PublishRequest) (project : string)
        (metadata : TokenMetadata) (st : State) :
  (∀ i err st',
      getImgPostInfo env r project metadata st = Returns (Some i) err st' →
      ImageExists st project (Fingerprint i) = true →
      images st' = images st
      ∧ (u_notification r = false →
         err = Some (errors_New "Image with same fingerprint already exists")
         ∧ holders st' = holders st)
      ∧ (u_notification r = true →
         err = None ∧ holders st' = (holders st ++ [(project, Fingerprint i)])%list)
      ∧ projects st' = projects st ∧ profiles st' = profiles st
      ∧ volumes st' = volumes st ∧ events st' = events st
      ∧ files st ⊆ files st')
  ∧ (∀ i err st',
        imgPostInstanceInfo env req project st = (Some i, err, st') →
        (∃ img, GetImage env st (Fingerprint i) project = Ok img) →
        err = Some (errors_New ("The image already exists: " ++ Fingerprint i))
        ∧ st' = st).
Proof.
  split.
  - intros i err st' Hrun Hex.
    destruct (getImgPostInfo_returns _ _ _ _ _ _ _ Hrun)
      as (rc & stm & Hrecv & Hfp & _ & Hcases).
    assert (images stm = images st ∧ holders stm = holders st
            ∧ profiles stm = profiles st ∧ projects stm = projects st
            ∧ volumes stm = volumes st ∧ events stm = events st
            ∧ files st ⊆ files stm)
      as (Himg & Hhold & Hprof & Hproj & Hvol & Hev & Hfiles).
    { case_bool_decide.
      - exact (receiveMultipart_frame _ _ _ _ Hrecv).
      - exact (receiveTarball_frame _ _ _ _ Hrecv). }
    rewrite Hfp in Hex |- *. rewrite <- (ImageExists_images stm st) in Hex by done.
    destruct Hcases as [(_ & Hn & -> & ->)|[(_ & Hn & -> & ->)|(Hno & _)]].
    + split_and!; try done; congruence.
    + cbn. split_and!; try done; [congruence|]. intros _. by rewrite Hhold.
    + congruence.
  - intros i err st'. unfold imgPostInstanceInfo. intros Hrun (img & Himg).
    repeat case_match; simplify_eq; cbn in *; try done; congruence.
Qed.

End ImageProperties.

(** The theorem at work: project [a] deletes [f1], which project [b] holds
    too; only the row of [a] goes. *)
Lemma imageDelete_keeps_shared_blob_witness :
  ∃ err st',
    Images.imageDelete Images.quiet false "a" "f1" (Images.store "1")
    = (Images.OperationDone err, st')
    ∧ Images.files st' = Images.files (Images.store "1")
    ∧ Images.volumes st' = Images.volumes (Images.store "1")
    ∧ Images.holders st' = Images.holders (Images.store "1")
    ∧ Images.events st' = Images.events (Images.store "1")
    ∧ (Images.images st' = Images.images (Images.store "1")
       ∨ Images.images st'
         = filter (λ i, Images.img_ID i ≠ 1) (Images.images (Images.store "1")))
    ∧ (Images.fault Images.quiet (Images.ImageOperationLock "f1") = None →
       Images.fault Images.quiet Images.TxImageExists = None →
       Images.fault Images.quiet Images.TxReferenced = None →
       Images.fault Images.quiet (Images.TxDeleteImage 1) = None →
       err = None
       ∧ Images.images st'
         = filter (λ i, Images.img_ID i ≠ 1) (Images.images (Images.store "1"))
       ∧ (NoDup (Images.img_ID <$> Images.images (Images.store "1")) →
          ∀ i, i ∈ Images.images st' ↔
               i ∈ Images.images (Images.store "1") ∧ i ≠ Images.cachedInA)).
Proof.
  apply (imageDelete_keeps_shared_blob Images.quiet "a" "f1" Images.cachedInA
           (Images.store "1")); reflexivity.
Defined.

(** The theorem at work: the PATCH [patchPublic] of [f1] in project [a]
    keeps the property [os], which the body does not mention. *)
Lemma imagePatch_merges_and_frames_witness :
  ∃ resp st' info',
    Images.imagePatch Images.quiet "a" Images.patchPublic (Images.store "1") = (resp, st')
    ∧ filter (λ i, Images.img_ID i = 1) (Images.images st') = [info']
    ∧ Images.img_Properties info' !! "os" = Some "Alpine"
    ∧ Images.img_Filename info' = "alpine.tar.xz".
Proof.
  destruct (imagePatch_merges_and_frames Images.quiet "a" "f1" Images.patchPublic
              Images.cachedInA (Images.store "1"))
    as (resp & st' & info' & Hrun & Hrow & _ & _ & Hprops & Hname & _).
  - compute_done.
  - reflexivity.
  - reflexivity.
  - reflexivity.
  - exists resp, st', info'. split; [exact Hrun|]. split; [exact Hrow|].
    split; [|exact Hname].
    exact (Hprops _ {["release" := "3.20"]} "os" eq_refl eq_refl eq_refl).
Defined.

(** The theorem at work: a split upload with [rootfs.squashfs] as its
    second part is refused and leaves the store alone; with [rootfs.img] the
    image is a virtual machine whose fingerprint is the digest of the two
    parts in order. *)
Lemma multipart_upload_parts_witness :
  Images.getImgPostInfo Images.quiet (Images.splitUpload "rootfs.squashfs") "a"
    Images.noToken (Images.store "1")
  = Images.Returns None (Some Images.ErrInvalidMultipart) (Images.store "1")
  ∧ (∃ i err st',
        Images.getImgPostInfo Images.quiet (Images.splitUpload "rootfs.img") "a"
          Images.noToken (Images.store "1") = Images.Returns (Some i) err st'
        ∧ Images.Type_ i = "virtual-machine"
        ∧ Images.Fingerprint i
          = Images.sha256hex Images.quiet [Byte.xfd; Byte.x51; Byte.x46]).
Proof.
  split.
  - destruct (multipart_upload_parts Images.quiet (Images.splitUpload "rootfs.squashfs")
                "a" Images.noToken (Images.store "1") eq_refl)
      as (_ & Hsecond & _).
    destruct (Hsecond (Images.mkPart "metadata" "meta.tar.xz" [Byte.xfd])
                (Images.mkPart "rootfs.squashfs" "disk.qcow2" [Byte.x51; Byte.x46]) []
                eq_refl) as (err & Hrun & Hwhy); [discriminate..|].
    rewrite Hrun. by rewrite Hwhy.
  - destruct (Images.getImgPostInfo Images.quiet (Images.splitUpload "rootfs.img") "a"
                Images.noToken (Images.store "1")) as [[i|] err st'|] eqn:Hrun;
      [|discriminate Hrun..].
    destruct (multipart_upload_parts Images.quiet (Images.splitUpload "rootfs.img")
                "a" Images.noToken (Images.store "1") eq_refl)
      as (_ & _ & Hinfo).
    destruct (Hinfo i err st' Hrun)
      as (part1 & part2 & rest & Hparts & _ & Htype & Hsum).
    cbn in Hparts. injection Hparts as <- <- <-.
    exists i, err, st'. split; [reflexivity|]. split; [|exact Hsum].
    destruct Htype as [[Hname _]|[_ Htype]]; [discriminate Hname|exact Htype].
Defined.

(** The theorem at work: the tarball with the digest [f1], which project
    [a] has already, uploaded as a normal request and as a cluster
    notification; and the publishing of a container whose image is [f1]. *)
Lemma existing_fingerprint_is_not_recreated_witness :
  (∃ i st', Images.getImgPostInfo Images.quiet (Images.tarballUpload false) "a"
              Images.noToken (Images.store "1")
            = Images.Returns (Some i)
                (Some (errors_New "Image with same fingerprint already exists")) st'
            ∧ Images.images st' = Images.images (Images.store "1")
            ∧ Images.holders st' = []
            ∧ Images.projects st' = Images.projects (Images.store "1")
            ∧ Images.profiles st' = Images.profiles (Images.store "1")
            ∧ Images.volumes st' = Images.volumes (Images.store "1")
            ∧ Images.events st' = Images.events (Images.store "1"))
  ∧ (∃ i st', Images.getImgPostInfo Images.quiet (Images.tarballUpload true) "a"
                Images.noToken (Images.store "1") = Images.Returns (Some i) None st'
              ∧ Images.images st' = Images.images (Images.store "1")
              ∧ Images.holders st' = [("a", "f1")]
              ∧ Images.projects st' = Images.projects (Images.store "1")
              ∧ Images.profiles st' = Images.profiles (Images.store "1")
              ∧ Images.volumes st' = Images.volumes (Images.store "1")
              ∧ Images.events st' = Images.events (Images.store "1"))
  ∧ (∃ i, Images.imgPostInstanceInfo Images.quiet (Images.publishContainer false) "a"
            (Images.store "1")
          = (Some i, Some (errors_New "The image already exists: f1"),
             Images.store "1")).
Proof.
  split; [|split].
  - destruct (Images.getImgPostInfo Images.quiet (Images.tarballUpload false) "a"
                Images.noToken (Images.store "1")) as [[i|] err st'|] eqn:Hrun;
      [|discriminate Hrun..].
    destruct (proj1 (existing_fingerprint_is_not_recreated Images.quiet
                       (Images.tarballUpload false) (Images.publishContainer false)
                       "a" Images.noToken (Images.store "1")) i err st' Hrun)
      as (Himg & Hnormal & _ & Hproj & Hprof & Hvol & Hev & _).
    { vm_compute in Hrun. injection Hrun as <- _ _. reflexivity. }
    destruct (Hnormal eq_refl) as [-> Hhold].
    exists i, st'. done.
  - destruct (Images.getImgPostInfo Images.quiet (Images.tarballUpload true) "a"
                Images.noToken (Images.store "1")) as [[i|] err st'|] eqn:Hrun;
      [|discriminate Hrun..].
    destruct (proj1 (existing_fingerprint_is_not_recreated Images.quiet
                       (Images.tarballUpload true) (Images.publishContainer false)
                       "a" Images.noToken (Images.store "1")) i err st' Hrun)
      as (Himg & _ & Hnote & Hproj & Hprof & Hvol & Hev & _).
    { vm_compute in Hrun. injection Hrun as <- _ _. reflexivity. }
    destruct (Hnote eq_refl) as [-> Hhold].
    exists i, st'. split_and!; try done.
    rewrite Hhold. vm_compute in Hrun. injection Hrun as <- _. reflexivity.
  - destruct (Images.imgPostInstanceInfo Images.quiet (Images.publishContainer false) "a"
                (Images.store "1")) as [[[i|] err] st'] eqn:Hrun;
      [|discriminate Hrun].
    assert (Images.Fingerprint i = "f1") as Hfp
      by (vm_compute in Hrun; injection Hrun as <- _ _; reflexivity).
    destruct (proj2 (existing_fingerprint_is_not_recreated Images.quiet
                       (Images.tarballUpload true) (Images.publishContainer false)
                       "a" Images.noToken (Images.store "1")) i err st' Hrun)
      as [-> ->].
    { exists Images.cachedInA. vm_compute in Hrun. injection Hrun as <- _ _. reflexivity. }
    exists i. rewrite Hfp. reflexivity.
Defined.

(** A property header on an image without properties: the write goes to
    a nil map, after the file was moved into the image directory. *)
Lemma getImgPostInfo_nil_map_write :
  ∃ st', Images.getImgPostInfo Images.bare Images.tarballWithProperty "a"
           Images.noToken (Images.store "1")
         = Images.Panics Images.NilMapWrite st'
         ∧ Images.images st' = Images.images (Images.store "1")
         ∧ Images.imagePath "f1" ∈ Images.files st'.
Proof.
  eexists. split; [reflexivity|]. split; [reflexivity|]. cbn. set_solver.
Qed.

(** A token value of another type than the one asserted. *)
Lemma getImgPostInfo_interface_conversion :
  ∃ st', Images.getImgPostInfo Images.quiet (Images.tarballUpload false) "a"
           Images.relayedToken (Images.store "1")
         = Images.Panics (Images.InterfaceConversion "expires_at") st'.
Proof. eexists. reflexivity. Qed.

(** The body [null] of a PATCH is a body without keys: the image is
    written back as it is and the event is sent. *)
Lemma imagePatch_null_body :
  ∃ st', Images.imagePatch Images.quiet "a" Images.patchNull (Images.store "1")
         = (Images.EmptySyncResponse, st')
         ∧ Images.events st' = [Images.Lifecycle "a" "image-updated" "f1"].
Proof. eexists. split; [vm_compute; reflexivity|]. reflexivity. Qed.

(** C4 (as stated) fails on the publish path: the request is marked as a
    cluster notification and the image [f1] has a record in the project,
    yet the publish fails with its already-exists error, and this member is
    not registered as a holder: [AddImageToLocalNode] is not called. *)
Lemma publish_notification_still_fails :
  Images.pub_notification (Images.publishContainer true) = true
  ∧ Images.ImageExists (Images.store "1") "a" "f1" = true
  ∧ ∃ i, Images.imgPostInstanceInfo Images.quiet (Images.publishContainer true) "a"
           (Images.store "1")
         = (Some i, Some (errors_New "The image already exists: f1"), Images.store "1")
         ∧ Images.Fingerprint i = "f1"
         ∧ Images.holders (Images.store "1") = [].
Proof.
  split; [reflexivity|]. split; [reflexivity|].
  eexists. split; [reflexivity|]. split; reflexivity.
Qed.

(** ** The expiry pass *)

(** Up to 106751 days the duration is the exact product. *)
Lemma expiryDuration_exact (d : Z) :
  -106751 ≤ d ≤ 106751 → Images.expiryDuration d = d * 24 * Images.Hour.
Proof.
  intros Hd. unfold Images.expiryDuration, Images.wrap64, Images.Hour.
  rewrite (Z.mod_small (d * 3600000000000 + 2 ^ 63)) by lia.
  replace (d * 3600000000000 + 2 ^ 63 - 2 ^ 63) with (d * 3600000000000) by lia.
  rewrite Z.mod_small by lia. lia.
Qed.

(** The days of a project: its own setting when it has one, a project-level
    [0] included, and the global default otherwise. *)
Lemma projectsExpiryDays_lookup (globalDays : Z) (ps : list Images.Project) :
  ∀ acc days,
    Images.projectsExpiryDays globalDays ps acc = Ok days →
    NoDup (Images.proj_Name <$> ps) →
    (∀ name, name ∉ Images.proj_Name <$> ps → days !! name = acc !! name)
    ∧ ∀ p, p ∈ ps →
           match Images.proj_Config p !! "images.remote_cache_expiry" with
           | None | Some "" => days !! Images.proj_Name p = Some globalDays
           | Some v => ∃ d, Images.ParseInt v = Ok d
                            ∧ days !! Images.proj_Name p = Some d
           end.
Proof.
  induction ps as [|q ps IH]; intros acc days; simpl.
  - intros Heq _. injection Heq as <-. split; [done|].
    intros p Hp. by apply elem_of_nil in Hp.
  - intros Hrun Hnd. apply NoDup_cons in Hnd as [Hq Hnd].
    destruct (Images.proj_Config q !! "images.remote_cache_expiry") as [v|] eqn:Hv; simpl in Hrun.
    + case_bool_decide as Hempty; simpl in Hrun.
      * destruct (IH _ _ Hrun Hnd) as [Hother Hin]. split.
        -- intros name Hname. rewrite Hother by set_solver.
           apply lookup_insert_ne. set_solver.
        -- intros p [->|Hp]%elem_of_cons; [|by apply Hin].
           rewrite Hv, Hempty, (Hother _ Hq). apply lookup_insert_eq.
      * destruct (Images.ParseInt v) as [d|] eqn:Hparse; [|discriminate].
        destruct (IH _ _ Hrun Hnd) as [Hother Hin]. split.
        -- intros name Hname. rewrite Hother by set_solver.
           apply lookup_insert_ne. set_solver.
        -- intros p [->|Hp]%elem_of_cons; [|by apply Hin].
           rewrite Hv. destruct v as [|c v]; [done|].
           exists d. split; [done|]. rewrite (Hother _ Hq). apply lookup_insert_eq.
    + destruct (IH _ _ Hrun Hnd) as [Hother Hin]. split.
      * intros name Hname. rewrite Hother by set_solver.
        apply lookup_insert_ne. set_solver.
      * intros p [->|Hp]%elem_of_cons; [|by apply Hin].
        rewrite Hv, (Hother _ Hq). apply lookup_insert_eq.
Qed.

Section PruneProperties.
Import Images.

Variable env : Env.
Variable days : gmap string Z.

(** Nothing fails and the context is not cancelled. *)
Hypothesis no_fault : ∀ s, fault env s = None.
Hypothesis not_cancelled : ∀ k, ctxDone env k = false.

#[local] Abbreviation due := (Images.due env days).

#[local] Instance due_dec i : Decision (due i).
Proof. unfold Images.due. apply _. Defined.

(** What "due" means: the project has a positive number of days, and the
    last use, or the upload if the row was never used, plus the duration of
    those days is not after the moment of the test. *)
Lemma expired_iff (i : Image) :
  due i ↔
  ∃ d, days !! img_Project i = Some d ∧ 0 < d
       ∧ (if bool_decide (img_LastUseDate i = 0) then img_UploadDate i
          else img_LastUseDate i) + expiryDuration d ≤ nowAt env (img_ID i).
Proof.
  unfold Images.due, expired, imageExpiry, After, IsZero.
  destruct (days !! img_Project i) as [d|]; simpl.
  - destruct (Z.leb_spec d 0) as [Hd|Hd].
    + split; [discriminate|]. intros (d' & Heq & Hpos & _). injection Heq as <-. lia.
    + rewrite negb_true_iff, Z.ltb_ge.
      destruct (Z.eqb_spec (img_LastUseDate i) 0) as [Hz|Hz]; simpl.
      * rewrite bool_decide_eq_true_2 by done. split.
        -- intros Hle. by exists d.
        -- intros (d' & Heq & _ & Hle). by injection Heq as <-.
      * rewrite bool_decide_eq_false_2 by done. split.
        -- intros Hle. by exists d.
        -- intros (d' & Heq & _ & Hle). by injection Heq as <-.
  - split; [discriminate|]. intros (d & Heq & _). discriminate.
Qed.

(** A row of a project without a positive number of days is never due. *)
Lemma not_due_without_positive_days (i : Image) :
  default 0 (days !! img_Project i) ≤ 0 → ¬ due i.
Proof.
  unfold Images.due, expired. intros Hd.
  destruct (Z.leb_spec (default 0 (days !! img_Project i)) 0); [discriminate|lia].
Qed.

(** The count that the inner loop keeps decides whether all rows of the
    fingerprint were deleted. *)
Lemma length_filter_all (P : Image → Prop) `{!∀ i, Decision (P i)} (l : list Image) :
  (length (filter P l) <? length l)%nat = false ↔ Forall P l.
Proof.
  rewrite Nat.ltb_ge. split.
  - intros Hlen. apply Forall_forall. intros x Hx.
    destruct (decide (P x)) as [|Hn]; [done|].
    pose proof (length_filter_lt P l x Hx Hn). lia.
  - intros Hall. induction Hall as [|x l Hx Hall IH]; [done|].
    rewrite filter_cons_True by done. simpl. lia.
Qed.

(** The inner loop deletes the due rows of its list, by id, and touches
    neither volumes nor files. *)
Lemma pruneRecords_quiet fingerprint (l : list Image) : ∀ n st,
  ∃ st', pruneRecords env days fingerprint l n st
         = (None, (n + length (filter due l))%nat, st')
         ∧ (∀ i, i ∈ images st' ↔
                 i ∈ images st ∧ ¬ ∃ j, j ∈ l ∧ due j ∧ img_ID j = img_ID i)
         ∧ volumes st' = volumes st ∧ files st' = files st.
Proof.
  induction l as [|a l IH]; intros n st; simpl.
  - exists st. rewrite Nat.add_0_r. split; [done|]. split; [|done].
    intros i. split; [|tauto]. intros Hi. split; [done|].
    intros (j & Hj & _). by apply elem_of_nil in Hj.
  - destruct (expired env days a) eqn:Ha.
    + rewrite no_fault.
      destruct (IH (S n) (emit (DeleteImage st (img_ID a))
                               (Lifecycle (img_Project a) "image-deleted" fingerprint)))
        as (st' & Hrun & Himg & Hvol & Hfiles).
      exists st'. rewrite Hrun, filter_cons_True by done.
      split; [f_equal; f_equal; simpl; lia|]. split; [|done].
      intros i. rewrite Himg. cbn [images emit DeleteImage setImages].
      rewrite list_elem_of_filter. split.
      * intros [[Hne Hi] Hnone]. split; [done|].
        intros (j & [->|Hj]%elem_of_cons & Hdue & Hid); [done|].
        apply Hnone. by exists j.
      * intros [Hi Hnone]. split; [split; [|done]|].
        -- intros Hid. apply Hnone. exists a. split; [left|done].
        -- intros (j & Hj & Hdue & Hid). apply Hnone. exists j. split; [by right|done].
    + destruct (IH n st) as (st' & Hrun & Himg & Hvol & Hfiles).
      exists st'. rewrite Hrun, filter_cons_False by (unfold due; congruence).
      split; [done|]. split; [|done].
      intros i. rewrite Himg. split; intros [Hi Hnone]; (split; [done|]).
      * intros (j & [->|Hj]%elem_of_cons & Hdue & Hid); [unfold due in Hdue; congruence|].
        apply Hnone. by exists j.
      * intros (j & Hj & Hdue & Hid). apply Hnone. exists j. split; [by right|done].
Qed.

(** The loop over the pools removes the volumes of the fingerprint on the
    pools it is given. *)
Lemma pruneVolumes_quiet fingerprint (names : list string) : ∀ st,
  ∃ st', pruneVolumes env fingerprint names st = (None, st')
         ∧ images st' = images st ∧ files st' = files st
         ∧ ∀ v, v ∈ volumes st' ↔
                v ∈ volumes st ∧ ¬ (v.1 ∈ names ∧ v.2 = fingerprint).
Proof.
  induction names as [|name names IH]; intros st; simpl.
  - exists st. repeat (split; [done|]). intros v. split; [|tauto].
    intros Hv. split; [done|]. intros [Hin _]. by apply elem_of_nil in Hin.
  - rewrite !no_fault.
    destruct (IH (poolDeleteImage st name fingerprint)) as (st' & Hrun & Himg & Hfiles & Hvol).
    exists st'. rewrite Hrun. repeat (split; [done|]).
    intros v. rewrite Hvol. cbn [volumes poolDeleteImage setVolumes].
    rewrite list_elem_of_filter, elem_of_cons. destruct v as [pool fp]. simpl.
    split.
    + intros [[Hne Hv] Hnone]. split; [done|].
      intros [[->|Hin] ->]; [done|tauto].
    + intros [Hv Hnone]. split; [split; [|done]|].
      * intros Heq. injection Heq as -> ->. tauto.
      * tauto.
Qed.

(** For a fingerprint all of whose rows went, the volumes of the
    fingerprint and its two files go. *)
Lemma pruneBlob_quiet fingerprint st :
  ∃ st', pruneBlob env fingerprint st = (None, st')
         ∧ images st' = images st
         ∧ files st' = files st ∖ {[imagePath fingerprint]} ∖ {[rootfsPath fingerprint]}
         ∧ ∀ v, v ∈ volumes st' ↔ v ∈ volumes st ∧ v.2 ≠ fingerprint.
Proof.
  unfold pruneBlob. rewrite no_fault.
  destruct (pruneVolumes_quiet fingerprint (poolNamesWithImage st fingerprint) st)
    as (st' & Hrun & Himg & Hfiles & Hvol).
  rewrite Hrun, !no_fault. eexists. split; [done|].
  cbn [images files volumes removeFile setFiles]. split; [done|]. split; [by rewrite Hfiles|].
  intros v. rewrite Hvol. split; intros [Hv Hnone]; (split; [done|]).
  - intros Hfp. apply Hnone. split; [|done].
    unfold poolNamesWithImage. apply list_elem_of_fmap. exists v.
    split; [done|]. by apply list_elem_of_filter.
  - tauto.
Qed.

(** The outer loop, on any list of groups. *)
Lemma pruneGroups_quiet (groups : list (string * list Image)) : ∀ k st,
  ∃ st', pruneGroups env days groups k st = (None, st')
         ∧ (∀ i, i ∈ images st' ↔
                 i ∈ images st
                 ∧ ¬ ∃ fp g j, (fp, g) ∈ groups ∧ j ∈ g ∧ due j ∧ img_ID j = img_ID i)
         ∧ (∀ p, p ∈ files st' ↔
                 p ∈ files st
                 ∧ ¬ ∃ fp g, (fp, g) ∈ groups ∧ Forall due g
                             ∧ (p = imagePath fp ∨ p = rootfsPath fp))
         ∧ (∀ v, v ∈ volumes st' ↔
                 v ∈ volumes st
                 ∧ ¬ ∃ fp g, (fp, g) ∈ groups ∧ Forall due g ∧ v.2 = fp).
Proof.
  induction groups as [|[fp g] groups IH]; intros k st; simpl.
  - exists st. split; [done|].
    split; [|split]; intros x; (split; [|tauto]); intros Hx; (split; [done|]).
    + intros (? & ? & ? & Hin & _). by apply elem_of_nil in Hin.
    + intros (? & ? & Hin & _). by apply elem_of_nil in Hin.
    + intros (? & ? & Hin & _). by apply elem_of_nil in Hin.
  - rewrite not_cancelled.
    destruct (pruneRecords_quiet fp g 0 st) as (st1 & Hrun1 & Himg1 & Hvol1 & Hfiles1).
    rewrite Hrun1. cbn [Nat.add].
    destruct (length (filter due g) <? length g)%nat eqn:Hcount.
    + assert (¬ Forall due g) as Hsome
        by (intros Hall; apply (length_filter_all due g) in Hall; congruence).
      destruct (IH (S k) st1) as (st' & Hrun & Himg & Hfiles & Hvol).
      exists st'. split; [done|]. split; [|split].
      * intros i. rewrite Himg, Himg1. split.
        -- intros [[Hi Hn1] Hn]. split; [done|].
           intros (fp' & g' & j & [Heq|Hin]%elem_of_cons & Hj & Hdue & Hid).
           ++ injection Heq as -> ->. apply Hn1. by exists j.
           ++ apply Hn. by exists fp', g', j.
        -- intros [Hi Hn]. split; [split; [done|]|].
           ++ intros (j & Hj & Hdue & Hid). apply Hn. exists fp, g, j.
              split; [left|done].
           ++ intros (fp' & g' & j & Hin & Hrest). apply Hn. exists fp', g', j.
              split; [by right|done].
      * intros p. rewrite Hfiles, Hfiles1. split; intros [Hp Hn]; (split; [done|]).
        -- intros (fp' & g' & [Heq|Hin]%elem_of_cons & Hall & Hpath).
           ++ injection Heq as -> ->. done.
           ++ apply Hn. by exists fp', g'.
        -- intros (fp' & g' & Hin & Hrest). apply Hn. exists fp', g'.
           split; [by right|done].
      * intros v. rewrite Hvol, Hvol1. split; intros [Hv Hn]; (split; [done|]).
        -- intros (fp' & g' & [Heq|Hin]%elem_of_cons & Hall & Hpath).
           ++ injection Heq as -> ->. done.
           ++ apply Hn. by exists fp', g'.
        -- intros (fp' & g' & Hin & Hrest). apply Hn. exists fp', g'.
           split; [by right|done].
    + assert (Forall due g) as Hall by (by apply (length_filter_all due g)).
      destruct (pruneBlob_quiet fp st1) as (st2 & Hrun2 & Himg2 & Hfiles2 & Hvol2).
      rewrite Hrun2.
      destruct (IH (S k) st2) as (st' & Hrun & Himg & Hfiles & Hvol).
      exists st'. split; [done|]. split; [|split].
      * intros i. rewrite Himg, Himg2, Himg1. split.
        -- intros [[Hi Hn1] Hn]. split; [done|].
           intros (fp' & g' & j & [Heq|Hin]%elem_of_cons & Hj & Hdue & Hid).
           ++ injection Heq as -> ->. apply Hn1. by exists j.
           ++ apply Hn. by exists fp', g', j.
        -- intros [Hi Hn]. split; [split; [done|]|].
           ++ intros (j & Hj & Hdue & Hid). apply Hn. exists fp, g, j.
              split; [left|done].
           ++ intros (fp' & g' & j & Hin & Hrest). apply Hn. exists fp', g', j.
              split; [by right|done].
      * intros p. rewrite Hfiles, Hfiles2, Hfiles1.
        rewrite !elem_of_difference, !elem_of_singleton. split.
        -- intros [[[Hp Hn1] Hn2] Hn]. split; [done|].
           intros (fp' & g' & [Heq|Hin]%elem_of_cons & Hall' & Hpath).
           ++ injection Heq as -> ->. tauto.
           ++ apply Hn. by exists fp', g'.
        -- intros [Hp Hn]. split; [split; [split; [done|]|]|].
           ++ intros ->. apply Hn. exists fp, g. split; [left|]. tauto.
           ++ intros ->. apply Hn. exists fp, g. split; [left|]. tauto.
           ++ intros (fp' & g' & Hin & Hrest). apply Hn. exists fp', g'.
              split; [by right|done].
      * intros v. rewrite Hvol, Hvol2, Hvol1. split.
        -- intros [[Hv Hn1] Hn]. split; [done|].
           intros (fp' & g' & [Heq|Hin]%elem_of_cons & Hall' & Hpath).
           ++ injection Heq as -> ->. done.
           ++ apply Hn. by exists fp', g'.
        -- intros [Hv Hn]. split; [split; [done|]|].
           ++ intros Hfp. apply Hn. exists fp, g. split; [left|]. done.
           ++ intros (fp' & g' & Hin & Hrest). apply Hn. exists fp', g'.
              split; [by right|done].
Qed.

(** The groups of [allImages]. *)
Lemma elem_of_groupImages (l : list Image) fp g :
  (fp, g) ∈ groupImages l ↔
  (∃ i, i ∈ l ∧ img_Fingerprint i = fp) ∧ g = filter (λ i, img_Fingerprint i = fp) l.
Proof.
  unfold groupImages. rewrite list_elem_of_fmap. split.
  - intros (fp' & Heq & Hin). injection Heq as -> ->.
    apply elem_of_remove_dups, list_elem_of_fmap in Hin as (i & -> & Hi).
    split; [by exists i|done].
  - intros [(i & Hi & <-) ->]. exists (img_Fingerprint i). split; [done|].
    apply elem_of_remove_dups, list_elem_of_fmap. by exists i.
Qed.

(** The pass as a whole, when nothing fails, on a table with unique ids:
    exactly the cached rows that are due are deleted; the two files and
    the volumes of a fingerprint are removed exactly when the fingerprint
    has cached rows and all of them were due.  Rows that are not cached
    do not count. *)
Theorem pruneExpiredImages_quiet (st : State) :
  NoDup (img_ID <$> images st) →
  projectsExpiryDays (GlobalExpiryDays env) (projects st) ∅ = Ok days →
  ∃ st', pruneExpiredImages env st = (None, st')
         ∧ (∀ i, i ∈ images st' ↔
                 i ∈ images st ∧ ¬ (img_Cached i = true ∧ due i))
         ∧ (∀ p, p ∈ files st' ↔
                 p ∈ files st
                 ∧ ¬ ∃ fp, allDue env days st fp
                           ∧ (p = imagePath fp ∨ p = rootfsPath fp))
         ∧ (∀ v, v ∈ volumes st' ↔
                 v ∈ volumes st ∧ ¬ allDue env days st v.2).
Proof.
  intros Hnd Hdays. unfold pruneExpiredImages. rewrite !no_fault, Hdays.
  cbn [mbind result_bind].
  destruct (pruneGroups_quiet (groupImages (GetCachedImages st)) 0 st)
    as (st' & Hrun & Himg & Hfiles & Hvol).
  exists st'. split; [done|].
  assert (∀ fp g, (fp, g) ∈ groupImages (GetCachedImages st) ∧ Forall due g
                  ↔ allDue env days st fp
                    ∧ g = filter (λ i, img_Fingerprint i = fp) (GetCachedImages st))
    as Hgroups.
  { intros fp g. rewrite elem_of_groupImages. unfold allDue, GetCachedImages. split.
    - intros [[(i & [Hc Hi]%list_elem_of_filter & Hfp) ->] Hall].
      split; [split; [by exists i|]|done].
      intros j Hj Hcj Hfj. rewrite Forall_forall in Hall. apply Hall.
      apply list_elem_of_filter. split; [done|]. by apply list_elem_of_filter.
    - intros [[(i & Hi & Hc & Hfp) Hall] ->]. split; [split; [|done]|].
      + exists i. split; [|done]. by apply list_elem_of_filter.
      + apply Forall_forall.
        intros j [Hfj [Hcj Hj]%list_elem_of_filter]%list_elem_of_filter.
        by apply Hall. }
  split; [|split].
  - intros i. rewrite Himg. split; intros [Hi Hn]; (split; [done|]).
    + intros [Hc Hdue]. apply Hn.
      exists (img_Fingerprint i),
             (filter (λ j, img_Fingerprint j = img_Fingerprint i) (GetCachedImages st)), i.
      assert (i ∈ GetCachedImages st) as Hic by (by apply list_elem_of_filter).
      split; [apply elem_of_groupImages; split; [by exists i|done]|].
      split; [by apply list_elem_of_filter|done].
    + intros (fp & g & j & [_ ->]%elem_of_groupImages & Hj & Hdue & Hid).
      apply list_elem_of_filter in Hj as [_ [Hcj Hj]%list_elem_of_filter].
      assert (j = i) as ->; [|by apply Hn].
      pose proof (row_by_id _ _ Hnd Hi) as Hrow.
      assert (j ∈ filter (λ x, img_ID x = img_ID i) (images st)) as Hjr
        by (by apply list_elem_of_filter).
      rewrite Hrow in Hjr. by apply list_elem_of_singleton in Hjr.
  - intros p. rewrite Hfiles. split; intros [Hp Hn]; (split; [done|]).
    + intros (fp & Hall & Hpath). apply Hn.
      exists fp, (filter (λ i, img_Fingerprint i = fp) (GetCachedImages st)).
      destruct (proj2 (Hgroups fp _) (conj Hall eq_refl)) as [Hin Hdue].
      done.
    + intros (fp & g & Hin & Hall & Hpath). apply Hn. exists fp.
      split; [|done]. by apply (Hgroups fp g).
  - intros v. rewrite Hvol. split; intros [Hv Hn]; (split; [done|]).
    + intros Hall. apply Hn.
      exists v.2, (filter (λ i, img_Fingerprint i = v.2) (GetCachedImages st)).
      destruct (proj2 (Hgroups v.2 _) (conj Hall eq_refl)) as [Hin Hdue].
      done.
    + intros (fp & g & Hin & Hall & <-). apply Hn. by apply (Hgroups v.2 g).
Qed.

End PruneProperties.

(** ** The expiry pass on the sample store *)

(** C3, at the input where the code departs from it: [f1] has a cached
    record in project [a], due after one day, and a record in project [b]
    that is not cached.  The pass deletes the record of [a], and with it
    the files [images/f1] and [images/f1.rootfs] and the volume on [pool0],
    although the record of [b] for the fingerprint was not deleted: the pass
    only counts the cached records of a fingerprint. *)
Theorem pruneExpiredImages_removes_blob_of_remaining_record :
  (Images.pruneExpiredImages Images.quiet (Images.store "1")).1 = None
  ∧ Images.images (Images.pruneExpiredImages Images.quiet (Images.store "1")).2
    = [Images.localInB]
  ∧ Images.img_Fingerprint Images.localInB = "f1"
  ∧ Images.files (Images.pruneExpiredImages Images.quiet (Images.store "1")).2 = ∅
  ∧ Images.volumes (Images.pruneExpiredImages Images.quiet (Images.store "1")).2 = [].
Proof. repeat split; vm_compute; reflexivity. Qed.

(** With a record in project [b] that is cached and not due (the global
    ten days apply to [b]), the files and the volume stay. *)
Lemma pruneExpiredImages_keeps_blob_of_cached_record :
  let st := Images.setImages (Images.store "1")
              [Images.cachedInA;
               Images.mkImage 2 "b" "f1" "alpine.tar.xz" 17 false false true "x86_64"
                 (990 * Images.Day) 0 0 (1000 * Images.Day) ∅ "container" [] []] in
  Images.img_ID <$> Images.images (Images.pruneExpiredImages Images.quiet st).2 = [2]
  ∧ Images.files (Images.pruneExpiredImages Images.quiet st).2 = Images.files st
  ∧ Images.volumes (Images.pruneExpiredImages Images.quiet st).2 = Images.volumes st.
Proof. repeat split; vm_compute; reflexivity. Qed.

(** A project-level expiry of [0] switches the expiry off for the project,
    whatever the global default. *)
Lemma pruneExpiredImages_zero_disables :
  Images.GlobalExpiryDays Images.quiet = 10
  ∧ Images.pruneExpiredImages Images.quiet (Images.store "0") = (None, Images.store "0").
Proof. split; vm_compute; reflexivity. Qed.

(** The product [expiryDays * time.Hour * 24] wraps from 106752 days on:
    the record of [a], uploaded on day 1000 and examined on day 1002, is
    deleted with an expiry of 106752 days. *)
Lemma pruneExpiredImages_duration_wraps :
  Images.expiryDuration 106751 = 106751 * Images.Day
  ∧ Images.expiryDuration 106752 < 0
  ∧ Images.img_ID
      <$> Images.images (Images.pruneExpiredImages Images.quiet (Images.store "106752")).2
    = [2].
Proof. repeat split; vm_compute; reflexivity. Qed.

(** The general theorem at work on the sample store with five days for
    project [a]: nothing is due on day 1002, and both rows stay. *)
Lemma pruneExpiredImages_quiet_sample :
  ∃ st', Images.pruneExpiredImages Images.quiet (Images.store "5") = (None, st')
         ∧ Images.cachedInA ∈ Images.images st'
         ∧ Images.localInB ∈ Images.images st'.
Proof.
  destruct (pruneExpiredImages_quiet Images.quiet {["a" := 5; "b" := 10]}
              (λ _, eq_refl) (λ _, eq_refl) (Images.store "5"))
    as (st' & Hrun & Himg & _).
  - compute_done.
  - vm_compute. reflexivity.
  - exists st'. split; [exact Hrun|]. split; apply Himg.
    + split; [left|]. intros [_ Hdue]. vm_compute in Hdue. discriminate Hdue.
    + split; [right; left|]. intros [Hc _]. discriminate Hc.
Defined.
